(** * pyLaserPulse.units_utils: SI prefix selection and the second/hertz flip

    A shallow embedding of [src/pyLaserPulse/units_utils.py].

    Conventions of the embedding.
    - Python numbers ([int], [float], NumPy scalars) are real numbers [R];
      overflow, infinities and NaN are not represented.  Where the source
      relies on one of them (the logarithm of 0, the mean of an empty array)
      the case is written out or excluded by the types, and this is said at
      the definition.
    - The floating-point operations that choose the prefix (lines 142-144)
      are the fields of a [Toolkit], of which nothing is assumed: what is
      proved for every toolkit holds of the rounding operations of the
      running program, what is proved for [exact_arith] holds of arithmetic that
      does not round.  Elsewhere arithmetic is exact.
    - An exception is a value of [exn]; a function that can raise returns a
      [result].
    - [str] is [string]; a character is a string of length one, as in Python.
    - The units library (astropy) is a collaborator that is not part of the
      repository.  The fragment of it that the functions touch is modelled
      in the module [Astropy]. *)

From Stdlib Require Import Reals Lra ZArith Lia List String Ascii Bool.
Import ListNotations.

Open Scope string_scope.
Open Scope Z_scope.

(** ** Python values: exceptions, results, strings, dictionaries *)

Inductive exn : Type :=
| TypeError (msg : string)
| ValueError (msg : string)
| IndexError
| ZeroDivisionError
| AttributeError
| RecursionError.

Inductive result (A : Type) : Type :=
| OK (a : A)
| Raise (e : exn).

Arguments OK {A} a.
Arguments Raise {A} e.

Definition bind {A B : Type} (r : result A) (k : A -> result B) : result B :=
  match r with
  | OK a => k a
  | Raise e => Raise e
  end.

Notation "x <- r ;; k" := (bind r (fun x => k))
  (at level 61, r at next level, right associativity).

(** [len(s)] *)
Definition py_len (s : string) : Z := Z.of_nat (String.length s).

(** [s[i]] on a [str]: negative indices count from the end, anything else
    out of range raises [IndexError]. *)
Definition str_getitem (s : string) (i : Z) : result string :=
  let j := if i <? 0 then i + py_len s else i in
  if j <? 0 then Raise IndexError
  else match String.get (Z.to_nat j) s with
       | Some c => OK (String c EmptyString)
       | None => Raise IndexError
       end.

(** [s.find(sub)]: the first position of [sub] in [s], or -1. *)
Definition str_find (s sub : string) : Z :=
  match String.index 0 sub s with
  | Some n => Z.of_nat n
  | None => -1
  end.

(** [s[1:]] *)
Definition str_tail (s : string) : string :=
  match s with
  | EmptyString => EmptyString
  | String _ rest => rest
  end.

(** Iterating over a [str] yields its characters as strings of length 1. *)
Fixpoint chars (s : string) : list string :=
  match s with
  | EmptyString => []
  | String c rest => String c EmptyString :: chars rest
  end.

(** [l[i]] on a list, for the non-negative constant indices of the source. *)
Definition list_getitem {A : Type} (l : list A) (i : nat) : result A :=
  match nth_error l i with
  | Some a => OK a
  | None => Raise IndexError
  end.

(** [range(start, stop, step)] for a positive step. *)
Definition py_range (start stop step : Z) : list Z :=
  map (fun i => start + step * Z.of_nat i)
      (seq 0 (Z.to_nat ((stop - start + step - 1) / step))).

(** A [dict] as the list of its items in insertion order; storing under a
    key that is present replaces the value and keeps the position. *)
Section Dict.
Context {K V : Type} (eqb : K -> K -> bool).

Fixpoint dict_set (d : list (K * V)) (k : K) (v : V) : list (K * V) :=
  match d with
  | [] => [(k, v)]
  | (k', v') :: d' =>
      if eqb k k' then (k', v) :: d' else (k', v') :: dict_set d' k v
  end.

Definition dict_of (items : list (K * V)) : list (K * V) :=
  fold_left (fun d kv => dict_set d (fst kv) (snd kv)) items [].

Fixpoint dict_get (d : list (K * V)) (k : K) : option V :=
  match d with
  | [] => None
  | (k', v) :: d' => if eqb k k' then Some v else dict_get d' k
  end.
End Dict.

(** ** The prefix table (lines 16-40, 61-64) *)

Definition si_prefixes : string := "yzafpnumkMGTPEZY".

Definition si_exponents : list Z :=
  filter (fun x => negb (x =? 0)) (py_range (-24) 25 3).

Definition attosecond_exponent : Z := -18.

Definition prefix_map : list (string * Z) :=
  dict_of String.eqb (combine (chars si_prefixes) si_exponents).

Definition exponent_map : list (Z * string) :=
  dict_of Z.eqb (map (fun pe => (snd pe, fst pe)) prefix_map).

Definition pref_to_expon (pref : string) : result Z :=
  match dict_get String.eqb prefix_map pref with
  | Some expon => OK expon
  | None => Raise (ValueError "'{}' is not a valid SI prefix")
  end.

Definition expon_to_pref (expon : Z) : result string :=
  match dict_get Z.eqb exponent_map expon with
  | Some pref => OK pref
  | None => Raise (ValueError "{} is must be in range(-24,25,3)")
  end.

Definition flip_prefix (pref : string) : result string :=
  let idx := py_len si_prefixes - 1 - str_find si_prefixes pref in
  str_getitem si_prefixes idx.


(** ** Real-number comparisons as booleans *)

Definition Rleb (x y : R) : bool := if Rle_dec x y then true else false.
Definition Reqb (x y : R) : bool := if Req_dec_T x y then true else false.

(** [np.log10] on a positive argument. *)
Definition log10 (x : R) : R := (ln x / ln 10)%R.

(** [np.mean] of a non-empty list. *)
Definition np_mean (l : list R) : R :=
  (fold_right Rplus 0 l / INR (List.length l))%R.

(** ** The units library *)

Module Astropy.

(** Modelled from the spec: section 6 asks of a named unit a
    physical-dimension classification, equality and a name.  The source
    reads [name], [physical_type] and [isinstance(_, PrefixUnit)]. *)
Record NamedUnit : Type := mkNamedUnit {
  name : string;
  is_PrefixUnit : bool;
  physical_type : string
}.

(** Modelled from the spec: a unit is a named unit or a composite unit
    [CompositeUnit(scale, bases, powers)] (section 3).  The constructor
    stores its three arguments as they are; the gathering and ordering of
    bases that the library may perform is not modelled.  A base may itself
    be composite, the case [opt_comp_units] tests for. *)
#[warnings="-register-all"] Inductive UnitBase : Type :=
| Named (n : NamedUnit)
| CompositeUnit (scale : R) (bases : list UnitBase) (powers : list R).

(** Modelled from the spec: the [scale], [bases] and [powers] attributes.
    A named unit has scale 1 and is its own single base with power 1 (the
    comment in [opt_named_unit] relies on the first). *)
Definition scale (u : UnitBase) : R :=
  match u with
  | Named _ => 1%R
  | CompositeUnit s _ _ => s
  end.

Definition bases (u : UnitBase) : list UnitBase :=
  match u with
  | Named _ => [u]
  | CompositeUnit _ bs _ => bs
  end.

Definition powers (u : UnitBase) : list R :=
  match u with
  | Named _ => [1%R]
  | CompositeUnit _ _ ps => ps
  end.

Definition isinstance_CompositeUnit (u : UnitBase) : bool :=
  match u with
  | Named _ => false
  | CompositeUnit _ _ _ => true
  end.

Definition isinstance_PrefixUnit (u : UnitBase) : bool :=
  match u with
  | Named n => is_PrefixUnit n
  | CompositeUnit _ _ _ => false
  end.

(** Modelled from the spec: [u.name]; a composite unit has no name. *)
Definition unit_name (u : UnitBase) : result string :=
  match u with
  | Named n => OK (name n)
  | CompositeUnit _ _ _ => Raise AttributeError
  end.

(** Modelled from the spec: [u.physical_type].  The library derives the
    type of a composite unit from its dimensions; the model gives a
    composite base the type the library uses for what it cannot name. *)
Definition unit_physical_type (u : UnitBase) : string :=
  match u with
  | Named n => physical_type n
  | CompositeUnit _ _ _ => "unknown"
  end.

Definition NamedUnit_eqb (a b : NamedUnit) : bool :=
  String.eqb (name a) (name b)
  && Bool.eqb (is_PrefixUnit a) (is_PrefixUnit b)
  && String.eqb (physical_type a) (physical_type b).

(** Modelled from the spec: [u == c] for a named constant [c] of the
    library ("two base units are equal iff they denote the same physical
    unit and prefix", section 3). *)
Definition unit_eqb (u : UnitBase) (c : NamedUnit) : bool :=
  match u with
  | Named n => NamedUnit_eqb n c
  | CompositeUnit _ _ _ => false
  end.

(** Modelled from the spec: the unprefixed symbols of the registry, each
    with its physical type; every one of them accepts the 16 SI prefixes
    (section 3, "optionally carrying one SI prefix"). *)
Definition roots : list (string * string) :=
  [ ("s", "time"); ("Hz", "frequency"); ("yr", "time");
    ("m", "length"); ("g", "mass"); ("A", "current");
    ("K", "temperature"); ("mol", "amount of substance");
    ("J", "energy"); ("W", "power"); ("N", "force"); ("Pa", "pressure") ].

(** Modelled from the spec: the SI prefixes as the library knows them. *)
Definition si_prefix_values : list (string * Z) :=
  [ ("y", -24); ("z", -21); ("a", -18); ("f", -15); ("p", -12);
    ("n", -9); ("u", -6); ("m", -3); ("k", 3); ("M", 6); ("G", 9);
    ("T", 12); ("P", 15); ("E", 18); ("Z", 21); ("Y", 24) ].

(** Modelled from the spec: the three units of section 3 that do not
    follow the prefix-plus-symbol scheme.  The attosecond is a prefix unit
    that has only its long name; the kilogram and the centimeter are not
    prefix units (comments at lines 128-134 of the source). *)
Definition attosecond : NamedUnit := mkNamedUnit "attosecond" true "time".
Definition kilogram : NamedUnit := mkNamedUnit "kg" false "mass".
Definition centimeter : NamedUnit := mkNamedUnit "cm" false "length".

(** Modelled from the spec: [units.Unit(s)], the unit a symbol parses to.
    The symbol "as" does not parse (comments at lines 80 and 128 of the
    source: the attosecond cannot be abbreviated). *)
Definition Unit (s : string) : result NamedUnit :=
  if (s =? "as")%string then Raise (ValueError "'{}' did not parse as unit")
  else if (s =? "attosecond")%string then OK attosecond
  else if (s =? "kg")%string then OK kilogram
  else if (s =? "cm")%string then OK centimeter
  else
    match dict_get String.eqb roots s with
    | Some pt => OK (mkNamedUnit s false pt)
    | None =>
        match s with
        | String c rest =>
            match dict_get String.eqb si_prefix_values (String c EmptyString),
                  dict_get String.eqb roots rest with
            | Some _, Some pt => OK (mkNamedUnit s true pt)
            | _, _ => Raise (ValueError "'{}' did not parse as unit")
            end
        | EmptyString => Raise (ValueError "'{}' did not parse as unit")
        end
    end.

(** Modelled from the spec: the named constants the source and its tests
    mention. *)
Definition second : NamedUnit := mkNamedUnit "s" false "time".
Definition hertz : NamedUnit := mkNamedUnit "Hz" false "frequency".
Definition exahertz : NamedUnit := mkNamedUnit "EHz" true "frequency".
Definition meter : NamedUnit := mkNamedUnit "m" false "length".
Definition kilometer : NamedUnit := mkNamedUnit "km" true "length".
Definition gigahertz : NamedUnit := mkNamedUnit "GHz" true "frequency".
Definition nanosecond : NamedUnit := mkNamedUnit "ns" true "time".

(** Modelled from the spec: what a named unit stands for, as a power of
    ten times an unprefixed unit (section 3). *)
Definition represents (n : NamedUnit) : Z * string :=
  if (name n =? "attosecond")%string then (-18, "s")
  else if (name n =? "kg")%string then (3, "g")
  else if (name n =? "cm")%string then (-2, "m")
  else if is_PrefixUnit n then
    match name n with
    | String c rest =>
        match dict_get String.eqb si_prefix_values (String c EmptyString) with
        | Some e => (e, rest)
        | None => (0, name n)
        end
    | EmptyString => (0, name n)
    end
  else (0, name n).

(** A unit of the registry is one that its own name parses to. *)
Definition registered (n : NamedUnit) : Prop := Unit (name n) = OK n.

(** Modelled from the spec: a quantity is a numeric payload, a scalar or
    an array, with a unit (section 3).  Arrays are non-empty: the mean of
    an empty array is NaN, which the real numbers do not have. *)
Inductive ndvalue : Type :=
| Scalar (x : R)
| Array (x : R) (xs : list R).

Record Quantity : Type := mkQuantity {
  value : ndvalue;
  unit : UnitBase
}.

Definition elements (v : ndvalue) : list R :=
  match v with
  | Scalar x => [x]
  | Array x xs => x :: xs
  end.

Definition nd_map (f : R -> R) (v : ndvalue) : ndvalue :=
  match v with
  | Scalar x => Scalar (f x)
  | Array x xs => Array (f x) (map f xs)
  end.

End Astropy.

Import Astropy.

(** What the functions of the module accept and return: a plain number, a
    unit or a quantity (the [Union] of the annotations). *)
Inductive PyObj : Type :=
| Number (x : R)
| AUnit (u : UnitBase)
| AQuantity (q : Quantity).


(** ** Tolerant comparison (lines 43-53) *)

Definition is_close (x y rtol atol : R) : bool :=
  Rleb (Rabs (x - y)) (atol + rtol * Rabs y).

Definition is_unity (x : R) : bool := is_close x 1 1e-6 1e-10.

(** ** The second/hertz flip (lines 56-116) *)

Definition is_time_freq (x : UnitBase) : bool :=
  (unit_physical_type x =? "time")%string
  || (unit_physical_type x =? "frequency")%string.

Definition fixhertz_item (base : UnitBase) (pwr : R)
  : result (UnitBase * R) :=
  if Rleb 0 pwr || negb (is_time_freq base) then OK (base, pwr)
  else if negb (isinstance_PrefixUnit base) then
    if unit_eqb base second then OK (Named hertz, (- pwr)%R)
    else if unit_eqb base hertz then OK (Named second, (- pwr)%R)
    else OK (base, pwr)
  else if unit_eqb base attosecond then OK (Named exahertz, (- pwr)%R)
  else
    nm <- unit_name base ;;
    prefix <- str_getitem nm 0 ;;
    let base_name := str_tail nm in
    new_prefix <- flip_prefix prefix ;;
    if (base_name =? "s")%string then
      u <- Unit (new_prefix ++ "Hz") ;; OK (Named u, (- pwr)%R)
    else if (base_name =? "Hz")%string then
      u <- Unit (new_prefix ++ "s") ;; OK (Named u, (- pwr)%R)
    else OK (base, pwr).

(** [tuple(map(f, xs, ys))]: stops with the shorter argument, and the first
    exception raised by [f] propagates. *)
Fixpoint map2_result {A B C : Type} (f : A -> B -> result C)
  (xs : list A) (ys : list B) : result (list C) :=
  match xs, ys with
  | x :: xs', y :: ys' =>
      c <- f x y ;; cs <- map2_result f xs' ys' ;; OK (c :: cs)
  | _, _ => OK []
  end.

Definition fixhertz_comp (u2 : UnitBase) : result UnitBase :=
  fixes <- map2_result fixhertz_item (bases u2) (powers u2) ;;
  match fixes with
  | [] => OK u2                 (* unpacking the empty zip fails *)
  | (b0, p0) :: _ =>
      let new_bases := map fst fixes in
      let new_powers := map snd fixes in
      if is_unity (scale u2)
         && (Z.of_nat (List.length new_bases) =? 1)
         && is_unity p0
      then OK b0
      else OK (CompositeUnit (scale u2) new_bases new_powers)
  end.

Definition fixhertz (x : PyObj) : result PyObj :=
  match x with
  | AQuantity q =>
      u <- fixhertz_comp (unit q) ;; OK (AQuantity (mkQuantity (value q) u))
  | AUnit (CompositeUnit _ _ _ as c) =>
      u <- fixhertz_comp c ;; OK (AUnit u)
  | _ => OK x
  end.

(** ** Optimising one base (lines 119-152) *)

(** Modelled from the spec: the numeric toolkit of section 6 (base-10
    logarithm, exponentiation with real exponents) and the arithmetic of
    Python floats, as lines 142-144 use them.  In the running program each
    of these rounds its result to a float; nothing is assumed of them. *)
Record Toolkit : Type := mkToolkit {
  fl_add : R -> R -> R;
  fl_sub : R -> R -> R;
  fl_mul : R -> R -> R;
  fl_div : R -> R -> R;
  fl_pow : R -> R -> R;
  fl_log10 : R -> R
}.

(** The toolkit that does not round. *)
Definition exact_arith : Toolkit :=
  mkToolkit Rplus Rminus Rmult Rdiv Rpower log10.

(** Line 142 on a non-zero value and power,
    [min(24, max(-24, np.floor((expon + np.log10(value ** (1 / pwr))) / 3) * 3))].
    [np.floor] is exact on a float, and so is the product by 3 wherever the
    clamp does not replace it. *)
Definition floored_exponent (tk : Toolkit) (expon : Z) (value pwr : R) : Z :=
  Zfloor
    (fl_div tk
       (fl_add tk (IZR expon)
          (fl_log10 tk (fl_pow tk value (fl_div tk 1 pwr))))
       3) * 3.

Definition clamped_exponent (tk : Toolkit) (expon : Z) (value pwr : R) : Z :=
  Z.min 24 (Z.max (-24) (floored_exponent tk expon value pwr)).

(** The new exponent of line 142.  [1 / pwr] raises for a zero power.  For
    a zero [value] the power [0.0 ** (1 / pwr)] raises when [pwr] is
    negative and is 0 otherwise, its logarithm is minus infinity and the
    clamp gives -24. *)
Definition new_exponent (tk : Toolkit) (expon : Z) (value pwr : R)
  : result Z :=
  if Reqb pwr 0 then Raise ZeroDivisionError
  else if Reqb value 0 then
    if Rleb 0 pwr then OK (-24) else Raise ZeroDivisionError
  else OK (clamped_exponent tk expon value pwr).

(** Line 144, [value * 10 ** (expon * pwr - new_expon * pwr)]. *)
Definition new_value_of (tk : Toolkit) (expon new_expon : Z) (value pwr : R)
  : R :=
  fl_mul tk value
    (fl_pow tk 10
       (fl_sub tk (fl_mul tk (IZR expon) pwr) (fl_mul tk (IZR new_expon) pwr))).

(** Lines 128-140: the unprefixed symbol of a base and the exponent of its
    prefix. *)
Definition unit_name_expon (unit : UnitBase) : result (string * Z) :=
  if unit_eqb unit attosecond then OK ("s", attosecond_exponent)
  else if unit_eqb unit kilogram then OK ("g", 3)
  else if unit_eqb unit centimeter then OK ("m", -2)
  else if isinstance_PrefixUnit unit then
    nm <- unit_name unit ;;
    c <- str_getitem nm 0 ;;
    expon <- pref_to_expon c ;;
    OK (str_tail nm, expon)
  else
    nm <- unit_name unit ;; OK (nm, 0).

(** Lines 145-151: the prefix of an exponent, and the unit of a symbol. *)
Definition new_prefix_of (new_expon : Z) : result string :=
  if negb (new_expon =? 0) then expon_to_pref new_expon else OK "".

Definition new_unit_of (new_unit_name : string) : result NamedUnit :=
  if (new_unit_name =? "as")%string then OK attosecond
  else Unit new_unit_name.

Definition opt_single_base (tk : Toolkit) (simple_unit : UnitBase)
  : result UnitBase :=
  if negb (isinstance_CompositeUnit simple_unit) then
    Raise (TypeError "opt_single_base expects a CompositeUnit")
  else if 1 <? Z.of_nat (List.length (bases simple_unit)) then
    Raise (TypeError "opt_single_base expects CompositeUnit with 1 base")
  else
    let sign := if Rleb 0 (scale simple_unit) then 1%R else (-1)%R in
    let value := Rabs (scale simple_unit) in
    unit <- list_getitem (bases simple_unit) 0 ;;
    ne <- unit_name_expon unit ;;
    let unit_name := fst ne in
    let expon := snd ne in
    pwr <- list_getitem (powers simple_unit) 0 ;;
    new_expon <- new_exponent tk expon value pwr ;;
    let new_value := new_value_of tk expon new_expon value pwr in
    new_prefix <- new_prefix_of new_expon ;;
    let new_unit_name := new_prefix ++ unit_name in
    new_unit <- new_unit_of new_unit_name ;;
    OK (CompositeUnit (sign * new_value) [Named new_unit] [pwr]).

Definition opt_named_unit (unit : UnitBase) : UnitBase := unit.

(** ** Optimising a composite unit and a quantity (lines 162-216) *)

(** The interpreter's bound on the depth of recursion. *)
Definition recursion_limit : nat := 1000.

(** Modelled from the spec: [CompositeUnit(scale, base, power)] called with
    one unit and one number where the sequences of the pairs are expected
    (section 3), as lines 169-170 do: the constructor iterates over its
    second argument, and a unit is not iterable. *)
Definition CompositeUnit_of_bare (scale : R) (base : UnitBase) (power : R)
  : result UnitBase :=
  Raise (TypeError "object is not iterable").

Section Optimize.

(** The floating-point operations of [opt_single_base]. *)
Variable tk : Toolkit.

(** The library's [decompose], which rewrites a unit over irreducible
    bases; nothing is assumed of it. *)
Variable decompose : UnitBase -> UnitBase.

(** In the nested case the arguments of the constructor are evaluated, the
    constructor raises, and the rest of the branch is not reached. *)
Fixpoint opt_comp_units_rec (depth : nat) (unit : UnitBase)
  : result UnitBase :=
  match depth with
  | O => Raise RecursionError
  | S depth' =>
      b0 <- list_getitem (bases unit) 0 ;;
      new_base <-
        (if isinstance_CompositeUnit b0 then
           let dec_base := decompose b0 in
           db0 <- list_getitem (bases dec_base) 0 ;;
           dp0 <- list_getitem (powers dec_base) 0 ;;
           p0 <- list_getitem (powers unit) 0 ;;
           sub_base <- CompositeUnit_of_bare (scale unit) db0 (dp0 * p0)%R ;;
           opt_sub_base <- opt_comp_units_rec depth' sub_base ;;
           OK (CompositeUnit (scale opt_sub_base)
                 (bases opt_sub_base ++ tl (bases dec_base))
                 (powers opt_sub_base ++ tl (powers dec_base)))
         else
           p0 <- list_getitem (powers unit) 0 ;;
           let temp_base := CompositeUnit (scale unit) [b0] [p0] in
           opt_single_base tk temp_base) ;;
      OK (CompositeUnit (scale new_base)
            (bases new_base ++ tl (bases unit))
            (powers new_base ++ tl (powers unit)))
  end.

Definition opt_comp_units (unit : UnitBase) : result UnitBase :=
  opt_comp_units_rec recursion_limit unit.

(** Line 199-201: the mean of the absolute values of an array; a scalar
    cannot be iterated over and is taken as it is. *)
Definition mean_value_of (value : ndvalue) : R :=
  match value with
  | Scalar x => x
  | Array x xs => np_mean (map Rabs (x :: xs))
  end.

Definition optimize_unit (quant : PyObj) (fix_time_freq : bool)
  : result PyObj :=
  match quant with
  | AUnit (Named _ as u) => OK (AUnit (opt_named_unit u))
  | AUnit (CompositeUnit _ _ _ as u) =>
      r <- opt_comp_units u ;; OK (AUnit r)
  | Number _ => OK quant
  | AQuantity q =>
      let value := value q in
      let unit := unit q in
      let mean_value := mean_value_of value in
      if Reqb mean_value 0 then OK quant
      else
        let scaled_value := nd_map (fun x => (x / mean_value)%R) value in
        let new_unit :=
          if isinstance_CompositeUnit unit
          then CompositeUnit (mean_value * scale unit)
                 (bases unit) (powers unit)
          else CompositeUnit mean_value [unit] [1%R] in
        (* [fixhertz] on a composite unit is [fixhertz_comp] *)
        new_unit <-
          (if fix_time_freq then fixhertz_comp new_unit else OK new_unit) ;;
        opt_unit <- opt_comp_units new_unit ;;
        OK (AQuantity
              (mkQuantity
                 (nd_map (fun x => (x * scale opt_unit)%R) scaled_value)
                 (CompositeUnit 1 (bases opt_unit) (powers opt_unit))))
  end.

End Optimize.

(** ** What a unit denotes *)

Section Denotation.

(** The size of each unprefixed unit in some fixed system of measurement. *)
Variable rho : string -> R.

Definition named_value (n : NamedUnit) : R :=
  (Rpower 10 (IZR (fst (represents n))) * rho (snd (represents n)))%R.

(** [scale * prod_i base_i ^ power_i] *)
Fixpoint denote (u : UnitBase) : R :=
  match u with
  | Named n => named_value n
  | CompositeUnit s bs ps =>
      (s * (fix prod (bs : list UnitBase) (ps : list R) {struct bs} : R :=
              match bs, ps with
              | b :: bs', p :: ps' => Rpower (denote b) p * prod bs' ps'
              | _, _ => 1
              end) bs ps)%R
  end.

End Denotation.

(** The product of the powers of the bases, as a function of its own. *)
Fixpoint denote_pairs (rho : string -> R) (bs : list UnitBase) (ps : list R)
  : R :=
  match bs, ps with
  | b :: bs', p :: ps' => (Rpower (denote rho b) p * denote_pairs rho bs' ps')%R
  | _, _ => 1%R
  end.

(** Every unprefixed unit has a positive size, and the hertz is the inverse
    of the second. *)
Definition valuation (rho : string -> R) : Prop :=
  (forall r, (0 < rho r)%R) /\ rho "Hz" = (/ rho "s")%R.

(** Two units denote the same magnitude. *)
Definition same_magnitude (u v : UnitBase) : Prop :=
  forall rho, valuation rho -> denote rho u = denote rho v.

(** [x] passes [is_unity] only by being 1. *)
Definition exactly_unity (x : R) : Prop := is_unity x = true -> x = 1%R.


(** ** The statements of the spec about the flip *)

(** [b ** p]: a named unit raised to a power, the one-pair unit of scale 1. *)
Definition power_unit (b : NamedUnit) (p : R) : UnitBase :=
  CompositeUnit 1 [Named b] [p].

(** Two quantities with the same payload whose units denote the same
    magnitude. *)
Definition same_quantity (a b : PyObj) : Prop :=
  match a, b with
  | AQuantity x, AQuantity y =>
      value x = value y /\ same_magnitude (unit x) (unit y)
  | _, _ => False
  end.

(** Section 8, "Hertz round trip", at the power [n] and the payload [v]. *)
Definition hertz_round_trip (n : Z) (v : ndvalue) : Prop :=
  exists q1 q2,
    fixhertz (AQuantity (mkQuantity v (power_unit second (- IZR n)))) = OK q1
    /\ same_quantity q1 (AQuantity (mkQuantity v (power_unit hertz (IZR n))))
    /\ fixhertz q1 = OK q2
    /\ same_quantity q2 (AQuantity (mkQuantity v (power_unit second (IZR n)))).

(** Section 4.2, "the flip alters only the unit, never the magnitude", at
    the quantity [q]. *)
Definition flip_preserves_magnitude (q : Quantity) : Prop :=
  exists u',
    fixhertz (AQuantity q) = OK (AQuantity (mkQuantity (value q) u'))
    /\ same_magnitude u' (unit q).

(** What [v * hertz ** n] is after the unwrapping of [fixhertz_comp]. *)
Definition hertz_power (n : Z) : UnitBase :=
  if n =? 1 then Named hertz else power_unit hertz (IZR n).

(** Two systems of measurement: one in which every unprefixed unit has size
    1, one in which the second has size 2. *)
Definition rho_one : string -> R := fun _ => 1%R.

Definition rho_two : string -> R :=
  fun r => if (r =? "s")%string then 2%R
           else if (r =? "Hz")%string then (/ 2)%R else 1%R.

(** Which calls can raise a [TypeError]. *)
Definition raises_TypeError {A : Type} (r : result A) : bool :=
  match r with
  | Raise (TypeError _) => true
  | _ => false
  end.

(** ** The statements of the spec about the choice of the prefix *)



(** Section 8, "single-base exponent bound", at one current exponent, scale
    and power: where the exponent is not clamped, the magnitude of one unit
    instance, [new_value ^ (1/power)], is at least 1. *)
Definition magnitude_at_least_one (tk : Toolkit) (e : Z) (s p : R) : Prop :=
  forall e',
    new_exponent tk e (Rabs s) p = OK e' ->
    -24 <= floored_exponent tk e (Rabs s) p <= 24 ->
    (1 <= Rpower (new_value_of tk e e' (Rabs s) p) (1 / p))%R.

(** A scale just below [1e-18]. *)
Definition tiny_scale : R := 9.999999999999981e-19.

(** A toolkit that rounds one logarithm and is exact otherwise: the
    logarithm of [tiny_scale] lies within 1e-15 of -18, nearer to -18 than
    to the float below it, and is returned as -18. *)
Definition rounded : Toolkit :=
  mkToolkit Rplus Rminus Rmult Rdiv Rpower
    (fun x => if Reqb x tiny_scale then (-18)%R else log10 x).

(** ** The statements about quantities *)

(** The physical values of a quantity: each element times what the unit
    denotes. *)
Definition quantity_values (rho : string -> R) (q : Quantity) : list R :=
  map (fun x => (x * denote rho (unit q))%R) (elements (value q)).

(** A unit whose first base the optimiser can work on: a unit of the
    registry, or a composite unit of non-zero scale whose first base is a
    unit of the registry with a non-zero power. *)
Definition optimizable (u : UnitBase) : Prop :=
  match u with
  | Named n => registered n
  | CompositeUnit s (Named n :: _) (p :: _) =>
      registered n /\ s <> 0%R /\ p <> 0%R
  | _ => False
  end.

(** A pair that [fixhertz_item] leaves alone by its first test. *)
Definition guarded (b : UnitBase) (p : R) : Prop :=
  (0 <= p)%R \/ is_time_freq b = false.

(** * Properties *)

(** ** Booleans over the reals *)

Lemma Rleb_true (x y : R) : (x <= y)%R -> Rleb x y = true.
Proof. intros H. unfold Rleb. destruct (Rle_dec x y); [reflexivity | contradiction]. Qed.

Lemma Rleb_false (x y : R) : (y < x)%R -> Rleb x y = false.
Proof. intros H. unfold Rleb. destruct (Rle_dec x y); [lra | reflexivity]. Qed.

Lemma Rleb_spec (x y : R) : Rleb x y = true <-> (x <= y)%R.
Proof.
  unfold Rleb. destruct (Rle_dec x y); split; intros; try assumption;
    try reflexivity; try discriminate; contradiction.
Qed.

Lemma Reqb_true (x y : R) : x = y -> Reqb x y = true.
Proof. intros H. unfold Reqb. destruct (Req_dec_T x y); [reflexivity | contradiction]. Qed.

Lemma Reqb_false (x y : R) : x <> y -> Reqb x y = false.
Proof. intros H. unfold Reqb. destruct (Req_dec_T x y); [contradiction | reflexivity]. Qed.

Lemma is_unity_spec (x : R) :
  is_unity x = true <-> (Rabs (x - 1) <= 1e-10 + 1e-6)%R.
Proof.
  unfold is_unity, is_close. rewrite Rleb_spec, Rabs_R1. lra.
Qed.

Lemma is_unity_1 : is_unity 1 = true.
Proof.
  apply is_unity_spec. replace (1 - 1)%R with 0%R by ring.
  rewrite Rabs_R0. lra.
Qed.

Lemma is_unity_far (x : R) : (x <= 0 \/ 2 <= x)%R -> is_unity x = false.
Proof.
  intros H. destruct (is_unity x) eqn:E; [| reflexivity].
  apply is_unity_spec in E. exfalso.
  unfold Rabs in E. destruct (Rcase_abs (x - 1)); lra.
Qed.

(** ** The prefix table *)

Lemma si_exponents_spec (e : Z) :
  In e si_exponents <-> e mod 3 = 0 /\ -24 <= e <= 24 /\ e <> 0.
Proof.
  change si_exponents with
    [-24; -21; -18; -15; -12; -9; -6; -3; 3; 6; 9; 12; 15; 18; 21; 24].
  split.
  - intros H. repeat (destruct H as [<- | H]; [repeat split; lia |]).
    destruct H.
  - intros (Hm & Hr & Hz). simpl.
    assert (exists k, e = 3 * k) as [k ->].
    { exists (e / 3). apply Z.mod_divide in Hm; [| lia].
      destruct Hm as [q ->]. rewrite Z.div_mul; lia. }
    assert (k = -8 \/ k = -7 \/ k = -6 \/ k = -5 \/ k = -4 \/ k = -3 \/
            k = -2 \/ k = -1 \/ k = 1 \/ k = 2 \/ k = 3 \/ k = 4 \/
            k = 5 \/ k = 6 \/ k = 7 \/ k = 8) as Hk by lia.
    repeat (destruct Hk as [-> | Hk]; [tauto |]). subst k. tauto.
Qed.

Lemma expon_to_pref_in (e : Z) :
  In e si_exponents -> exists p, expon_to_pref e = OK p /\ pref_to_expon p = OK e.
Proof.
  change si_exponents with
    [-24; -21; -18; -15; -12; -9; -6; -3; 3; 6; 9; 12; 15; 18; 21; 24].
  intros H.
  repeat (destruct H as [<- | H]; [eexists; split; vm_compute; reflexivity |]).
  destruct H.
Qed.

Lemma expon_to_pref_not_in (e : Z) :
  ~ In e si_exponents ->
  expon_to_pref e = Raise (ValueError "{} is must be in range(-24,25,3)").
Proof.
  change si_exponents with
    [-24; -21; -18; -15; -12; -9; -6; -3; 3; 6; 9; 12; 15; 18; 21; 24].
  intros H. unfold expon_to_pref.
  change exponent_map with
    [(-24, "y"); (-21, "z"); (-18, "a"); (-15, "f"); (-12, "p"); (-9, "n");
     (-6, "u"); (-3, "m"); (3, "k"); (6, "M"); (9, "G"); (12, "T");
     (15, "P"); (18, "E"); (21, "Z"); (24, "Y")].
  cbn [dict_get].
  repeat match goal with
  | |- context [Z.eqb e ?k] =>
      destruct (Z.eqb_spec e k) as [-> | _]; [exfalso; apply H; simpl; tauto |]
  end.
  reflexivity.
Qed.

(** C5 (as the code has it): the lookup returns a prefix exactly for the
    non-zero multiples of 3 in [-24, 24], and raises the [ValueError] of
    [expon_to_pref] for every other exponent, 0 included. *)
Theorem expon_to_pref_domain (e : Z) :
  ((exists p, expon_to_pref e = OK p) <->
   (e mod 3 = 0 /\ -24 <= e <= 24 /\ e <> 0))
  /\ (~ (e mod 3 = 0 /\ -24 <= e <= 24 /\ e <> 0) ->
      expon_to_pref e = Raise (ValueError "{} is must be in range(-24,25,3)")).
Proof.
  rewrite <- si_exponents_spec. split; [split |].
  - intros [p Hp]. destruct (in_dec Z.eq_dec e si_exponents) as [Hin | Hout];
      [assumption |].
    rewrite (expon_to_pref_not_in e Hout) in Hp. discriminate.
  - intros Hin. destruct (expon_to_pref_in e Hin) as (p & Hp & _). eauto.
  - apply expon_to_pref_not_in.
Qed.

(** C5 (as the spec words it) fails at 0: it is a multiple of 3 in
    [-24, 24], and the lookup raises. *)
Lemma expon_to_pref_zero_raises :
  (0 mod 3 = 0 /\ -24 <= 0 <= 24)
  /\ expon_to_pref 0 = Raise (ValueError "{} is must be in range(-24,25,3)")
  /\ ~ (forall e, e mod 3 = 0 /\ -24 <= e <= 24 ->
                  exists p, expon_to_pref e = OK p).
Proof.
  split; [split; [reflexivity | lia] |]. split; [reflexivity |].
  intros H. destruct (H 0) as [p Hp]; [split; [reflexivity | lia] |].
  discriminate Hp.
Qed.

(** C8: on each of the 16 prefix symbols [flip_prefix] is an involution; it
    sends the symbol at index [i] to the one at index [15 - i], whose
    exponent is the opposite. *)
Theorem flip_prefix_involution (p : string) :
  In p (chars si_prefixes) ->
  exists q,
    flip_prefix p = OK q
    /\ flip_prefix q = OK p
    /\ In q (chars si_prefixes)
    /\ str_find si_prefixes q = 15 - str_find si_prefixes p
    /\ exists e, pref_to_expon p = OK e /\ pref_to_expon q = OK (- e).
Proof.
  intros H. simpl in H.
  repeat (destruct H as [<- | H];
          [eexists; split; [vm_compute; reflexivity |];
           split; [vm_compute; reflexivity |];
           split; [simpl; tauto |];
           split; [vm_compute; reflexivity |];
           eexists; split; vm_compute; reflexivity |]).
  destruct H.
Qed.

Lemma flip_prefix_involution_kilo :
  In "k" (chars si_prefixes)
  /\ exists q,
    flip_prefix "k" = OK q
    /\ flip_prefix q = OK "k"
    /\ In q (chars si_prefixes)
    /\ str_find si_prefixes q = 15 - str_find si_prefixes "k"
    /\ exists e, pref_to_expon "k" = OK e /\ pref_to_expon q = OK (- e).
Proof.
  split; [simpl; tauto | apply (flip_prefix_involution "k"); simpl; tauto].
Defined.

(** ** The guards of [opt_single_base] *)

Lemma opt_single_base_not_composite (tk : Toolkit) (n : NamedUnit) :
  opt_single_base tk (Named n)
  = Raise (TypeError "opt_single_base expects a CompositeUnit").
Proof. reflexivity. Qed.

Lemma opt_single_base_many_bases (tk : Toolkit) s b1 b2 bs ps :
  opt_single_base tk (CompositeUnit s (b1 :: b2 :: bs) ps)
  = Raise (TypeError "opt_single_base expects CompositeUnit with 1 base").
Proof.
  unfold opt_single_base. cbn [isinstance_CompositeUnit negb bases].
  replace (1 <? Z.of_nat (List.length (b1 :: b2 :: bs))) with true;
    [reflexivity |].
  symmetry. apply Z.ltb_lt. cbn [List.length]. lia.
Qed.

Lemma bind_no_TypeError {A B : Type} (r : result A) (k : A -> result B) :
  raises_TypeError r = false ->
  (forall a, raises_TypeError (k a) = false) ->
  raises_TypeError (bind r k) = false.
Proof. destruct r as [a | e]; intros Hr Hk; [apply Hk | exact Hr]. Qed.

Lemma list_getitem_no_TypeError {A : Type} (l : list A) (i : nat) :
  raises_TypeError (list_getitem l i) = false.
Proof. unfold list_getitem. destruct (nth_error l i); reflexivity. Qed.

Lemma str_getitem_no_TypeError (s : string) (i : Z) :
  raises_TypeError (str_getitem s i) = false.
Proof.
  unfold str_getitem. destruct (_ <? 0); [reflexivity |].
  destruct (String.get _ s); reflexivity.
Qed.

Lemma pref_to_expon_no_TypeError (c : string) :
  raises_TypeError (pref_to_expon c) = false.
Proof. unfold pref_to_expon. destruct (dict_get _ _ _); reflexivity. Qed.

Lemma expon_to_pref_no_TypeError (e : Z) :
  raises_TypeError (expon_to_pref e) = false.
Proof. unfold expon_to_pref. destruct (dict_get _ _ _); reflexivity. Qed.

Lemma Unit_no_TypeError (s : string) : raises_TypeError (Unit s) = false.
Proof.
  unfold Unit.
  repeat match goal with
  | |- context [if ?c then _ else _] => destruct c; try reflexivity
  | |- context [match ?c with _ => _ end] => destruct c; try reflexivity
  end.
Qed.

Lemma unit_name_expon_no_TypeError (b : UnitBase) :
  raises_TypeError (unit_name_expon b) = false.
Proof.
  unfold unit_name_expon.
  repeat (match goal with
          | |- context [if ?c then _ else _] => destruct c
          end; try reflexivity).
  - destruct b as [n | s bs ps]; [| reflexivity]. cbn [unit_name bind].
    apply bind_no_TypeError; [apply str_getitem_no_TypeError | intros c].
    apply bind_no_TypeError; [apply pref_to_expon_no_TypeError | reflexivity].
  - destruct b; reflexivity.
Qed.

Lemma new_exponent_no_TypeError (tk : Toolkit) e v p :
  raises_TypeError (new_exponent tk e v p) = false.
Proof.
  unfold new_exponent.
  repeat (match goal with
          | |- context [if ?c then _ else _] => destruct c
          end; try reflexivity).
Qed.

(** A one-pair unit passes both guards: what it raises, if anything, is not
    a [TypeError]. *)
Lemma opt_single_base_one_pair_passes (tk : Toolkit) s b p :
  raises_TypeError (opt_single_base tk (CompositeUnit s [b] [p])) = false.
Proof.
  unfold opt_single_base.
  cbn [isinstance_CompositeUnit negb bases powers List.length Z.of_nat
       Z.ltb Z.compare Pos.of_succ_nat Pos.compare Pos.compare_cont
       list_getitem nth_error bind].
  apply bind_no_TypeError; [apply unit_name_expon_no_TypeError | intros ne].
  apply bind_no_TypeError; [apply new_exponent_no_TypeError | intros e'].
  apply bind_no_TypeError.
  - unfold new_prefix_of. destruct (negb _);
      [apply expon_to_pref_no_TypeError | reflexivity].
  - intros pfx. apply bind_no_TypeError; [| reflexivity].
    unfold new_unit_of. destruct (String.eqb _ _);
      [reflexivity | apply Unit_no_TypeError].
Qed.

(** C4, the case the guard misses: with no base at all the second guard
    ([len(bases) > 1]) does not fire and indexing the first base raises
    [IndexError], not the [TypeError] that announces "1 base". *)
Theorem opt_single_base_zero_bases (tk : Toolkit) (s : R) (ps : list R) :
  opt_single_base tk (CompositeUnit s [] ps) = Raise IndexError.
Proof. reflexivity. Qed.

(** ** Composite units and quantities *)

Lemma recursion_limit_succ : exists d, recursion_limit = S d.
Proof. exists 999%nat. reflexivity. Qed.

(** What [opt_single_base] returns is a one-pair unit over a named base. *)
Lemma opt_single_base_shape (tk : Toolkit) (u r : UnitBase) :
  opt_single_base tk u = OK r ->
  exists v n p, r = CompositeUnit v [Named n] [p].
Proof.
  unfold opt_single_base.
  destruct (negb _); [discriminate |]. destruct (_ <? _); [discriminate |].
  destruct (list_getitem (bases u) 0) as [b |]; [| discriminate].
  cbn [bind].
  destruct (unit_name_expon b) as [ne |]; [| discriminate]. cbn [bind].
  destruct (list_getitem (powers u) 0) as [p |]; [| discriminate].
  cbn [bind].
  destruct (new_exponent _ _ _) as [e' |]; [| discriminate]. cbn [bind].
  destruct (new_prefix_of e') as [pfx |]; [| discriminate]. cbn [bind].
  destruct (new_unit_of _) as [n |]; [| discriminate]. cbn [bind].
  intros [= <-]. eauto.
Qed.

(** C2: when the first base is a named unit, [opt_comp_units] is
    [opt_single_base] on the scale and the first pair, followed by the other
    pairs as they were; it returns exactly when [opt_single_base] does. *)
Theorem opt_comp_units_first_base
  (tk : Toolkit) (decompose : UnitBase -> UnitBase)
  (s : R) (n : NamedUnit) (bs : list UnitBase) (p : R) (ps : list R) :
  opt_comp_units tk decompose (CompositeUnit s (Named n :: bs) (p :: ps))
  = (first <- opt_single_base tk (CompositeUnit s [Named n] [p]) ;;
     OK (CompositeUnit (scale first) (bases first ++ bs) (powers first ++ ps)))
  /\ (forall r,
        opt_comp_units tk decompose (CompositeUnit s (Named n :: bs) (p :: ps))
        = OK r <->
        exists v n' p',
          opt_single_base tk (CompositeUnit s [Named n] [p])
          = OK (CompositeUnit v [Named n'] [p'])
          /\ r = CompositeUnit v (Named n' :: bs) (p' :: ps)).
Proof.
  assert (opt_comp_units tk decompose (CompositeUnit s (Named n :: bs) (p :: ps))
          = (first <- opt_single_base tk (CompositeUnit s [Named n] [p]) ;;
             OK (CompositeUnit (scale first) (bases first ++ bs)
                   (powers first ++ ps)))) as Heq.
  { unfold opt_comp_units. destruct recursion_limit_succ as [d ->].
    reflexivity. }
  split; [exact Heq |]. intros r. rewrite Heq. split.
  - destruct (opt_single_base _) as [first |] eqn:Hs; [| discriminate].
    destruct (opt_single_base_shape _ _ _ Hs) as (v & n' & p' & ->).
    cbn. intros [= <-]. eauto.
  - intros (v & n' & p' & -> & ->). reflexivity.
Qed.

Lemma np_mean_singleton (x : R) : np_mean [x] = x.
Proof. unfold np_mean. cbn. field. Qed.

(** C9: a plain number comes back as it is, and so does a quantity whose
    mean of absolute values is 0 (for a scalar, its absolute value). *)
Theorem optimize_unit_nothing_to_do
  (tk : Toolkit) (decompose : UnitBase -> UnitBase) :
  (forall x fix_time_freq,
      optimize_unit tk decompose (Number x) fix_time_freq = OK (Number x))
  /\ (forall q fix_time_freq,
        np_mean (map Rabs (elements (value q))) = 0%R ->
        optimize_unit tk decompose (AQuantity q) fix_time_freq
        = OK (AQuantity q)).
Proof.
  split; [reflexivity |]. intros q f H.
  unfold optimize_unit.
  replace (Reqb (mean_value_of (value q)) 0) with true; [reflexivity |].
  symmetry. apply Reqb_true. destruct (value q) as [x | x xs].
  - cbn [elements map mean_value_of] in *. rewrite np_mean_singleton in H.
    unfold Rabs in H. destruct (Rcase_abs x); lra.
  - exact H.
Qed.

Lemma optimize_unit_zero_kilometer :
  np_mean (map Rabs (elements (Scalar 0))) = 0%R
  /\ optimize_unit exact_arith (fun u => u)
       (AQuantity (mkQuantity (Scalar 0) (Named kilometer))) true
     = OK (AQuantity (mkQuantity (Scalar 0) (Named kilometer))).
Proof.
  assert (np_mean (map Rabs (elements (Scalar 0))) = 0%R) as H.
  { cbn [elements map]. rewrite np_mean_singleton. apply Rabs_R0. }
  split; [exact H |].
  exact (proj2 (optimize_unit_nothing_to_do exact_arith (fun u => u))
           (mkQuantity (Scalar 0) (Named kilometer)) true H).
Defined.

Lemma fixhertz_comp_no_bases (s : R) (ps : list R) :
  fixhertz_comp (CompositeUnit s [] ps) = OK (CompositeUnit s [] ps).
Proof. reflexivity. Qed.

(** C10: a quantity with a non-zero mean whose unit is a composite unit
    without bases passes the zero test and reaches [opt_comp_units], where
    indexing the first base raises [IndexError]: neither the quantity nor
    one of the [TypeError]/[ValueError] of the module comes back. *)
Theorem optimize_unit_dimensionless_IndexError
  (tk : Toolkit) (decompose : UnitBase -> UnitBase)
  (v : ndvalue) (s : R) (fix_time_freq : bool) :
  mean_value_of v <> 0%R ->
  optimize_unit tk decompose
    (AQuantity (mkQuantity v (CompositeUnit s [] []))) fix_time_freq
  = Raise IndexError.
Proof.
  intros H. unfold optimize_unit. cbn [value unit].
  rewrite (Reqb_false _ _ H).
  cbn [isinstance_CompositeUnit bases powers].
  assert (forall u, opt_comp_units tk decompose (CompositeUnit u [] [])
                    = Raise IndexError) as Hopt.
  { intros u. unfold opt_comp_units. destruct recursion_limit_succ as [d ->].
    reflexivity. }
  destruct fix_time_freq.
  - rewrite fixhertz_comp_no_bases. cbn [bind]. rewrite Hopt. reflexivity.
  - cbn [bind]. rewrite Hopt. reflexivity.
Qed.

Lemma optimize_unit_dimensionless_two :
  mean_value_of (Scalar 2) <> 0%R
  /\ optimize_unit exact_arith (fun u => u)
       (AQuantity (mkQuantity (Scalar 2) (CompositeUnit 1 [] []))) false
     = Raise IndexError.
Proof.
  assert (mean_value_of (Scalar 2) <> 0%R) as H by (cbn; lra).
  split; [exact H |].
  exact (optimize_unit_dimensionless_IndexError exact_arith (fun u => u)
           (Scalar 2) 1%R false H).
Defined.

(** ** The new exponent *)

Lemma clamp3_range (k : Z) :
  let e' := Z.min 24 (Z.max (-24) (k * 3)) in
  e' mod 3 = 0 /\ -24 <= e' <= 24.
Proof.
  intros e'. subst e'. split; [| lia].
  destruct (Z_le_gt_dec (k * 3) (-24)); [rewrite Z.max_l by lia; reflexivity |].
  rewrite Z.max_r by lia.
  destruct (Z_le_gt_dec 24 (k * 3)); [rewrite Z.min_l by lia; reflexivity |].
  rewrite Z.min_r by lia. apply Z.mod_mul. lia.
Qed.

Lemma new_prefix_of_clamped (e' : Z) :
  e' mod 3 = 0 -> -24 <= e' <= 24 ->
  (e' = 0 /\ new_prefix_of e' = OK "")
  \/ (e' <> 0 /\ In e' si_exponents
      /\ exists pfx, new_prefix_of e' = OK pfx /\ expon_to_pref e' = OK pfx
                     /\ pref_to_expon pfx = OK e').
Proof.
  intros Hm Hr. destruct (Z.eq_dec e' 0) as [-> | Hz].
  - left. split; reflexivity.
  - right. assert (In e' si_exponents) as Hin
      by (apply si_exponents_spec; repeat split; lia).
    destruct (expon_to_pref_in e' Hin) as (pfx & Hp & Hq).
    split; [exact Hz |]. split; [exact Hin |]. exists pfx.
    unfold new_prefix_of. apply Z.eqb_neq in Hz. rewrite Hz. cbn [negb].
    auto.
Qed.

Lemma clamped_exponent_range (tk : Toolkit) (e : Z) (v p : R) :
  clamped_exponent tk e v p mod 3 = 0
  /\ -24 <= clamped_exponent tk e v p <= 24.
Proof. unfold clamped_exponent, floored_exponent. apply clamp3_range. Qed.

Lemma new_exponent_legal (tk : Toolkit) (e : Z) (v p : R) :
  v <> 0%R -> p <> 0%R ->
  new_exponent tk e v p = OK (clamped_exponent tk e v p).
Proof.
  intros Hv Hp. unfold new_exponent.
  rewrite (Reqb_false _ _ Hp), (Reqb_false _ _ Hv). reflexivity.
Qed.

(** Without rounding the two formulas are the ones of the spec. *)
Lemma floored_exponent_exact (e : Z) (v p : R) :
  floored_exponent exact_arith e v p
  = Zfloor ((IZR e + log10 (Rpower v (1 / p))) / 3) * 3.
Proof. reflexivity. Qed.

Lemma clamped_exponent_exact (e : Z) (v p : R) :
  clamped_exponent exact_arith e v p
  = Z.min 24
      (Z.max (-24) (Zfloor ((IZR e + log10 (Rpower v (1 / p))) / 3) * 3)).
Proof. reflexivity. Qed.

Lemma new_value_of_exact (e e' : Z) (v p : R) :
  new_value_of exact_arith e e' v p
  = (v * Rpower 10 (IZR e * p - IZR e' * p))%R.
Proof. reflexivity. Qed.

Lemma ln_10_pos : (0 < ln 10)%R.
Proof. rewrite <- ln_1. apply ln_increasing; lra. Qed.

Lemma ln_Rpower (x y : R) : ln (Rpower x y) = (y * ln x)%R.
Proof. unfold Rpower. apply ln_exp. Qed.

Lemma Rpower_pos (x y : R) : (0 < Rpower x y)%R.
Proof. unfold Rpower. apply exp_pos. Qed.

(** The magnitude of one unit instance after rescaling, when the chosen
    exponent does not exceed [e + log10 (v ^ (1/p))]. *)
Lemma per_unit_magnitude (e e' : Z) (v p : R) :
  (0 < v)%R -> p <> 0%R ->
  (IZR e' <= IZR e + log10 (Rpower v (1 / p)))%R ->
  (1 <= Rpower (v * Rpower 10 (IZR e * p - IZR e' * p)) (1 / p))%R.
Proof.
  intros Hv Hp Hle.
  assert (0 < ln 10)%R as HT by apply ln_10_pos.
  unfold log10 in Hle. rewrite ln_Rpower in Hle.
  unfold Rpower at 1.
  rewrite ln_mult; [| assumption | apply Rpower_pos].
  rewrite ln_Rpower.
  assert (1 / p * (ln v + (IZR e * p - IZR e' * p) * ln 10)
          = (IZR e + 1 / p * ln v / ln 10 - IZR e') * ln 10)%R as ->
    by (field; split; lra).
  assert (0 <= (IZR e + 1 / p * ln v / ln 10 - IZR e') * ln 10)%R as H0
    by (apply Rmult_le_pos; lra).
  set (t := ((IZR e + 1 / p * ln v / ln 10 - IZR e') * ln 10)%R) in *.
  destruct H0 as [H0 | H0].
  - pose proof (exp_increasing 0 t H0) as Hx. rewrite exp_0 in Hx. lra.
  - rewrite <- H0, exp_0. lra.
Qed.

Lemma floor3_le (x : R) : (IZR (Zfloor (x / 3) * 3) <= x)%R.
Proof.
  rewrite mult_IZR. pose proof (Zfloor_bound (x / 3)) as [H _]. lra.
Qed.

Lemma opt_single_base_one_pair
  (tk : Toolkit) (s : R) (b : UnitBase) (p : R) :
  opt_single_base tk (CompositeUnit s [b] [p])
  = (ne <- unit_name_expon b ;;
     new_expon <- new_exponent tk (snd ne) (Rabs s) p ;;
     new_prefix <- new_prefix_of new_expon ;;
     new_unit <- new_unit_of (new_prefix ++ fst ne) ;;
     OK (CompositeUnit
           ((if Rleb 0 s then 1 else -1)
            * new_value_of tk (snd ne) new_expon (Rabs s) p)
           [Named new_unit] [p])).
Proof. reflexivity. Qed.

(** C7 (as the code has it): on a one-pair unit with non-zero scale and
    power whose base has a symbol and a current exponent, whatever the
    floating-point operations return, the new exponent is a multiple of 3 in
    [-24, 24] and the prefix lookup succeeds (0 gives the empty prefix, any
    other value is a key of the table), so that [opt_single_base] goes on to
    build the new unit.  When the operations do not round, and unless the
    clamp raised the exponent to -24, the magnitude of one unit instance,
    [new_value ^ (1/pwr)], is at least 1. *)
Theorem new_exponent_bound
  (tk : Toolkit) (b : UnitBase) (s p : R) (nm : string) (e : Z) :
  unit_name_expon b = OK (nm, e) -> s <> 0%R -> p <> 0%R ->
  let e' := clamped_exponent tk e (Rabs s) p in
  new_exponent tk e (Rabs s) p = OK e'
  /\ (e' mod 3 = 0 /\ -24 <= e' <= 24)
  /\ (e' = 0 -> new_prefix_of e' = OK "")
  /\ (e' <> 0 -> In e' si_exponents /\ exists pfx, expon_to_pref e' = OK pfx)
  /\ (exists pfx,
        new_prefix_of e' = OK pfx
        /\ opt_single_base tk (CompositeUnit s [b] [p])
           = (new_unit <- new_unit_of (pfx ++ nm) ;;
              OK (CompositeUnit
                    ((if Rleb 0 s then 1 else -1)
                     * new_value_of tk e e' (Rabs s) p)
                    [Named new_unit] [p])))
  /\ (-24 <= floored_exponent exact_arith e (Rabs s) p ->
      (1 <= Rpower
              (new_value_of exact_arith e
                 (clamped_exponent exact_arith e (Rabs s) p) (Rabs s) p)
              (1 / p))%R).
Proof.
  intros Hne Hs Hp e'.
  assert (Rabs s <> 0%R) as Hv by (apply Rabs_no_R0; exact Hs).
  assert (0 < Rabs s)%R as Hpos by (apply Rabs_pos_lt; exact Hs).
  pose proof (new_exponent_legal tk e (Rabs s) p Hv Hp) as Hnew.
  fold e' in Hnew.
  destruct (clamped_exponent_range tk e (Rabs s) p) as [Hm Hr].
  fold e' in Hm, Hr.
  assert (exists pfx, new_prefix_of e' = OK pfx) as [pfx Hpfx].
  { destruct (new_prefix_of_clamped e' Hm Hr) as [[_ H] | (_ & _ & q & H & _)];
      eauto. }
  split; [exact Hnew |]. split; [split; assumption |].
  split; [intros ->; reflexivity |].
  split.
  { intros Hz.
    destruct (new_prefix_of_clamped e' Hm Hr)
      as [[H0 _] | (_ & Hin & q & _ & Hq & _)]; [contradiction | eauto]. }
  split.
  { exists pfx. split; [exact Hpfx |].
    rewrite opt_single_base_one_pair, Hne. cbn [bind fst snd].
    rewrite Hnew. cbn [bind]. rewrite Hpfx. reflexivity. }
  rewrite floored_exponent_exact, clamped_exponent_exact, new_value_of_exact.
  intros Hlow. apply per_unit_magnitude; [assumption | assumption |].
  apply Rle_trans
    with (IZR (Zfloor ((IZR e + log10 (Rpower (Rabs s) (1 / p))) / 3) * 3));
    [| apply floor3_le].
  apply IZR_le. lia.
Qed.

Lemma unit_name_expon_meter : unit_name_expon (Named meter) = OK ("m", 0).
Proof. reflexivity. Qed.

Lemma new_exponent_bound_meter :
  unit_name_expon (Named meter) = OK ("m", 0)
  /\ 1000%R <> 0%R /\ 1%R <> 0%R
  /\ exists e',
       new_exponent exact_arith 0 (Rabs 1000) 1 = OK e'
       /\ e' mod 3 = 0 /\ -24 <= e' <= 24.
Proof.
  assert (1000%R <> 0%R) as H1 by lra.
  assert (1%R <> 0%R) as H2 by lra.
  split; [reflexivity |]. split; [exact H1 |]. split; [exact H2 |].
  destruct (new_exponent_bound exact_arith (Named meter) 1000 1 "m" 0
              unit_name_expon_meter H1 H2) as (Hn & (Hm & Hr) & _).
  eexists. split; [exact Hn |]. split; [exact Hm | exact Hr].
Defined.

(** *** Rounding and the bound *)

Lemma tiny_scale_pos : (0 < tiny_scale)%R.
Proof. unfold tiny_scale. lra. Qed.

Lemma Rpower_10_18 : Rpower 10 18 = (10 ^ 18)%R.
Proof.
  replace 18%R with (INR 18); [apply Rpower_pow; lra |].
  rewrite INR_IZR_INZ. reflexivity.
Qed.

Lemma tiny_scale_rescaled :
  (tiny_scale * Rpower 10 18)%R = 0.9999999999999981%R.
Proof. rewrite Rpower_10_18. unfold tiny_scale. simpl pow. lra. Qed.

Lemma ln_10_gt_2 : (2 < ln 10)%R.
Proof.
  rewrite <- (ln_exp 2). apply ln_increasing; [apply exp_pos |].
  replace 2%R with (1 + 1)%R by ring. rewrite exp_plus.
  pose proof exp_le_3 as H3. pose proof (exp_pos 1) as H0. nra.
Qed.

Lemma ln_lower (y : R) : (0 < y)%R -> (1 - / y <= ln y)%R.
Proof.
  intros Hy. pose proof (exp_ineq1_le (ln (/ y))) as H.
  rewrite exp_ln in H by (apply Rinv_0_lt_compat; exact Hy).
  rewrite ln_Rinv in H by exact Hy. lra.
Qed.

(** The logarithm that [rounded] replaces by -18 is within 1e-15 of -18;
    everywhere else [rounded] is the exact logarithm. *)
Lemma rounded_log10_accurate (x : R) :
  (Rabs (fl_log10 rounded x - log10 x) <= 1e-15)%R.
Proof.
  cbn [fl_log10 rounded]. unfold Reqb.
  destruct (Req_dec_T x tiny_scale) as [-> | _].
  2:{ replace (log10 x - log10 x)%R with 0%R by ring. rewrite Rabs_R0. lra. }
  pose proof ln_10_gt_2 as HT.
  assert (tiny_scale = 0.9999999999999981 * / 10 ^ 18)%R as Hts
    by (unfold tiny_scale; simpl pow; lra).
  assert (ln tiny_scale = ln 0.9999999999999981 - 18 * ln 10)%R as Hln.
  { rewrite Hts, ln_mult;
      [| lra | apply Rinv_0_lt_compat, pow_lt; lra].
    rewrite ln_Rinv by (apply pow_lt; lra). rewrite ln_pow by lra.
    replace (INR 18) with 18%R; [ring |].
    rewrite INR_IZR_INZ. reflexivity. }
  assert (- 2e-15 <= ln 0.9999999999999981 <= 0)%R as [Hlo Hhi].
  { split.
    - eapply Rle_trans; [| apply ln_lower; lra]. 
      assert (/ 0.9999999999999981 <= 1 + 2e-15)%R as Hinv.
      { apply Rmult_le_reg_l with 0.9999999999999981%R; [lra |].
        rewrite Rinv_r by lra. lra. }
      lra.
    - rewrite <- ln_1. left. apply ln_increasing; lra. }
  unfold log10. rewrite Hln.
  replace (-18 - (ln 0.9999999999999981 - 18 * ln 10) / ln 10)%R
    with (- ln 0.9999999999999981 / ln 10)%R by (field; lra).
  rewrite Rabs_pos_eq.
  - apply Rmult_le_reg_r with (ln 10); [lra |].
    unfold Rdiv. rewrite Rmult_assoc, Rinv_l by lra. nra.
  - apply Rmult_le_pos; [lra |]. left. apply Rinv_0_lt_compat. lra.
Qed.

(** C7 (as the spec words it) fails under rounding: at [tiny_scale] metres
    with power 1 the logarithm is rounded to -18, the exponent is -18 with
    no clamp, and the new value is 0.9999999999999981 < 1. *)
Lemma magnitude_below_one_when_rounded :
  new_exponent rounded 0 (Rabs tiny_scale) 1 = OK (-18)
  /\ floored_exponent rounded 0 (Rabs tiny_scale) 1 = -18
  /\ new_value_of rounded 0 (-18) (Rabs tiny_scale) 1 = 0.9999999999999981%R
  /\ (Rpower 0.9999999999999981 (1 / 1) < 1)%R
  /\ ~ magnitude_at_least_one rounded 0 tiny_scale 1.
Proof.
  pose proof tiny_scale_pos as Hpos.
  assert (Rabs tiny_scale = tiny_scale) as Habs
    by (apply Rabs_pos_eq; lra).
  assert (floored_exponent rounded 0 tiny_scale 1 = -18) as Hfloor.
  { unfold floored_exponent. cbn [fl_div fl_add fl_log10 fl_pow rounded].
    replace (1 / 1)%R with 1%R by field.
    rewrite Rpower_1 by exact Hpos.
    rewrite (Reqb_true tiny_scale tiny_scale eq_refl).
    replace ((0 + -18) / 3)%R with (IZR (-6)) by lra.
    rewrite ZfloorZ. reflexivity. }
  assert (new_exponent rounded 0 tiny_scale 1 = OK (-18)) as Hnew.
  { rewrite new_exponent_legal by lra.
    unfold clamped_exponent. rewrite Hfloor. reflexivity. }
  assert (new_value_of rounded 0 (-18) tiny_scale 1
          = 0.9999999999999981%R) as Hval.
  { unfold new_value_of. cbn [fl_mul fl_pow fl_sub rounded].
    replace (0 * 1 - -18 * 1)%R with 18%R by lra.
    apply tiny_scale_rescaled. }
  assert (Rpower 0.9999999999999981 (1 / 1) < 1)%R as Hlt.
  { replace (1 / 1)%R with 1%R by field. rewrite Rpower_1; lra. }
  rewrite Habs.
  split; [exact Hnew |]. split; [exact Hfloor |]. split; [exact Hval |].
  split; [exact Hlt |].
  intros Hclaim. unfold magnitude_at_least_one in Hclaim. rewrite Habs in Hclaim.
  specialize (Hclaim (-18) Hnew). rewrite Hfloor, Hval in Hclaim.
  assert (-24 <= -18 <= 24) as Hr by lia.
  specialize (Hclaim Hr). lra.
Qed.

(** ** The registry *)

Lemma prefix_map_eq : prefix_map = si_prefix_values.
Proof. reflexivity. Qed.

Lemma dict_get_In {V : Type} (d : list (string * V)) (k : string) (v : V) :
  dict_get String.eqb d k = Some v -> In k (map fst d).
Proof.
  induction d as [| [k' v'] d IH]; cbn [dict_get map fst In];
    [discriminate |].
  destruct (String.eqb_spec k k') as [-> | _]; [left; reflexivity |].
  intros H. right. apply IH, H.
Qed.

Lemma NamedUnit_eqb_eq (a b : NamedUnit) : NamedUnit_eqb a b = true <-> a = b.
Proof.
  destruct a as [na pa ta], b as [nb pb tb]. unfold NamedUnit_eqb.
  cbn [name is_PrefixUnit physical_type].
  rewrite !andb_true_iff, !String.eqb_eq, Bool.eqb_true_iff.
  split; [intros [[-> ->] ->]; reflexivity | intros [= -> -> ->]; auto].
Qed.

Lemma NamedUnit_eqb_name (a b : NamedUnit) :
  (name a =? name b)%string = false -> NamedUnit_eqb a b = false.
Proof. intros H. unfold NamedUnit_eqb. rewrite H. reflexivity. Qed.

(** On a unit of the registry the source reads off the symbol and the
    exponent that the unit stands for. *)
Lemma registered_represents (n : NamedUnit) :
  registered n ->
  unit_name_expon (Named n) = OK (snd (represents n), fst (represents n))
  /\ In (snd (represents n)) (map fst roots).
Proof.
  destruct n as [nm pf pt]. unfold registered, Unit. cbn [name].
  destruct (nm =? "as")%string eqn:E1; [discriminate |].
  destruct (nm =? "attosecond")%string eqn:E2.
  { intros [= <- <- <-]. split; [reflexivity | simpl; tauto]. }
  destruct (nm =? "kg")%string eqn:E3.
  { intros [= <- <- <-]. split; [reflexivity | simpl; tauto]. }
  destruct (nm =? "cm")%string eqn:E4.
  { intros [= <- <- <-]. split; [reflexivity | simpl; tauto]. }
  assert (forall pf' pt', unit_eqb (Named (mkNamedUnit nm pf' pt')) attosecond = false
                     /\ unit_eqb (Named (mkNamedUnit nm pf' pt')) kilogram = false
                     /\ unit_eqb (Named (mkNamedUnit nm pf' pt')) centimeter = false)
    as Hspecial.
  { intros pf' pt'. repeat split; apply NamedUnit_eqb_name; assumption. }
  destruct (dict_get String.eqb roots nm) as [pt' |] eqn:Eroot.
  { intros [= <- <-]. destruct (Hspecial false pt') as (Ha & Hk & Hc).
    unfold unit_name_expon, represents. rewrite Ha, Hk, Hc.
    cbn [name is_PrefixUnit isinstance_PrefixUnit unit_name bind fst snd].
    rewrite E2, E3, E4. cbn [fst snd].
    split; [reflexivity | eapply dict_get_In; eassumption]. }
  destruct nm as [| c rest]; [discriminate |].
  destruct (dict_get String.eqb si_prefix_values (String c "")) as [e0 |] eqn:Epre;
    [| discriminate].
  destruct (dict_get String.eqb roots rest) as [pt' |] eqn:Erest;
    [| discriminate].
  intros [= <- <-]. destruct (Hspecial true pt') as (Ha & Hk & Hc).
  unfold unit_name_expon, represents. rewrite Ha, Hk, Hc.
  cbn [name is_PrefixUnit isinstance_PrefixUnit unit_name bind fst snd].
  rewrite E2, E3, E4, Epre. cbn [fst snd].
  replace (str_getitem (String c rest) 0) with (OK (String c "")) by reflexivity.
  cbn [bind]. unfold pref_to_expon. rewrite prefix_map_eq, Epre.
  cbn [bind str_tail].
  split; [reflexivity | eapply dict_get_In; eassumption].
Qed.

(** Every symbol of the registry takes every prefix the optimiser can
    choose, and the unit that results stands for that exponent and symbol. *)
Lemma reprefix_registered (root : string) (e' : Z) :
  In root (map fst roots) -> e' mod 3 = 0 -> -24 <= e' <= 24 ->
  exists pfx n',
    new_prefix_of e' = OK pfx
    /\ new_unit_of (pfx ++ root) = OK n'
    /\ registered n'
    /\ represents n' = (e', root).
Proof.
  intros Hroot Hm Hr.
  assert (In e' [-24; -21; -18; -15; -12; -9; -6; -3; 0;
                 3; 6; 9; 12; 15; 18; 21; 24]) as He.
  { destruct (Z.eq_dec e' 0) as [-> | Hz]; [simpl; tauto |].
    assert (In e' si_exponents) as Hin
      by (apply si_exponents_spec; repeat split; lia).
    revert Hin.
    change si_exponents with
      [-24; -21; -18; -15; -12; -9; -6; -3; 3; 6; 9; 12; 15; 18; 21; 24].
    simpl. tauto. }
  clear Hm Hr. cbn [roots map fst] in Hroot.
  repeat (destruct Hroot as [<- | Hroot];
          [repeat (destruct He as [<- | He];
                   [do 2 eexists; repeat split; vm_compute; reflexivity |]);
           destruct He |]).
  destruct Hroot.
Qed.

Lemma Rabs_sign (s : R) : ((if Rleb 0 s then 1 else -1) * Rabs s = s)%R.
Proof.
  unfold Rleb. destruct (Rle_dec 0 s) as [H | H].
  - rewrite Rabs_pos_eq by assumption. ring.
  - rewrite Rabs_left by lra. ring.
Qed.

Lemma registered_cases (n : NamedUnit) :
  registered n ->
  n = attosecond \/ n = kilogram \/ n = centimeter
  \/ (is_PrefixUnit n = false /\ represents n = (0, name n))
  \/ (is_PrefixUnit n = true
      /\ exists c rest e0,
           name n = String c rest
           /\ pref_to_expon (String c "") = OK e0
           /\ represents n = (e0, rest)).
Proof.
  destruct n as [nm pf pt]. unfold registered, Unit. cbn [name].
  destruct (nm =? "as")%string eqn:E1; [discriminate |].
  destruct (nm =? "attosecond")%string eqn:E2;
    [intros [= <- <- <-]; auto |].
  destruct (nm =? "kg")%string eqn:E3; [intros [= <- <- <-]; auto |].
  destruct (nm =? "cm")%string eqn:E4; [intros [= <- <- <-]; auto |].
  destruct (dict_get String.eqb roots nm) as [pt' |] eqn:Eroot.
  { intros [= <- <-]. do 3 right. left. unfold represents.
    cbn [name is_PrefixUnit]. rewrite E2, E3, E4. auto. }
  destruct nm as [| c rest]; [discriminate |].
  destruct (dict_get String.eqb si_prefix_values (String c "")) as [e0 |] eqn:Epre;
    [| discriminate].
  destruct (dict_get String.eqb roots rest) as [pt' |] eqn:Erest;
    [| discriminate].
  intros [= <- <-]. do 4 right. split; [reflexivity |].
  exists c, rest, e0. split; [reflexivity |]. split.
  - unfold pref_to_expon. rewrite prefix_map_eq, Epre. reflexivity.
  - unfold represents. cbn [name is_PrefixUnit]. rewrite E2, E3, E4, Epre.
    reflexivity.
Qed.








(** ** The flip keeps what a unit denotes *)

Lemma Rpower_reciprocal (x y p : R) :
  (0 < x)%R -> (0 < y)%R -> (x * y = 1)%R ->
  Rpower x (- p) = Rpower y p.
Proof.
  intros Hx Hy Hxy. unfold Rpower. f_equal.
  assert (y = / x)%R as -> by (apply Rmult_eq_reg_l with x; [| lra];
                               rewrite Hxy; field; lra).
  rewrite ln_Rinv by assumption. ring.
Qed.

Lemma named_value_pos (rho : string -> R) (n : NamedUnit) :
  valuation rho -> (0 < named_value rho n)%R.
Proof.
  intros [Hpos _]. unfold named_value.
  apply Rmult_lt_0_compat; [apply Rpower_pos | apply Hpos].
Qed.

(** A prefixed second and the hertz under the opposite prefix are
    reciprocal. *)
Lemma named_value_reciprocal (rho : string -> R) (a b : NamedUnit) (e : Z) :
  valuation rho ->
  (represents a = (e, "s") /\ represents b = (- e, "Hz"))
  \/ (represents a = (e, "Hz") /\ represents b = (- e, "s")) ->
  (named_value rho a * named_value rho b = 1)%R.
Proof.
  intros [Hpos HHz] H. unfold named_value.
  assert (Rpower 10 (IZR e) * Rpower 10 (IZR (- e)) = 1)%R as H10.
  { rewrite <- Rpower_plus, opp_IZR.
    replace (IZR e + - IZR e)%R with 0%R by ring. apply Rpower_O. lra. }
  pose proof (Hpos "s") as Hs.
  destruct H as [[-> ->] | [-> ->]]; cbn [fst snd]; rewrite HHz.
  - transitivity ((Rpower 10 (IZR e) * Rpower 10 (IZR (- e)))
                  * (rho "s" * / rho "s"))%R; [ring |].
    rewrite H10. field. lra.
  - transitivity ((Rpower 10 (IZR e) * Rpower 10 (IZR (- e)))
                  * (rho "s" * / rho "s"))%R; [ring |].
    rewrite H10. field. lra.
Qed.

Lemma flip_prefix_char (c : ascii) (q : string) :
  flip_prefix (String c "") = OK q ->
  exists e,
    dict_get String.eqb si_prefix_values (String c "") = Some e
    /\ (forall u, Unit (q ++ "Hz") = OK u -> represents u = (- e, "Hz"))
    /\ (forall u, Unit (q ++ "s") = OK u -> represents u = (- e, "s")).
Proof.
  destruct c as [b0 b1 b2 b3 b4 b5 b6 b7].
  destruct b0, b1, b2, b3, b4, b5, b6, b7; intros H; vm_compute in H;
    try discriminate H;
    injection H as <-; eexists; (split; [reflexivity |]);
    split; intros u Hu; vm_compute in Hu;
    solve [discriminate Hu | injection Hu as <-; reflexivity].
Qed.

Lemma represents_prefixed (c : ascii) (rest pt : string) (e : Z) :
  rest = "s" \/ rest = "Hz" ->
  dict_get String.eqb si_prefix_values (String c "") = Some e ->
  represents (mkNamedUnit (String c rest) true pt) = (e, rest).
Proof.
  intros Hrest He. unfold represents. cbn [name is_PrefixUnit].
  assert ((String c rest =? "attosecond")%string = false) as ->.
  { destruct Hrest as [-> | ->]; cbn; destruct (Ascii.eqb c _); reflexivity. }
  assert ((String c rest =? "kg")%string = false) as ->.
  { destruct Hrest as [-> | ->]; cbn; destruct (Ascii.eqb c _); reflexivity. }
  assert ((String c rest =? "cm")%string = false) as ->.
  { destruct Hrest as [-> | ->]; cbn; destruct (Ascii.eqb c _); reflexivity. }
  rewrite He. reflexivity.
Qed.

Lemma unit_eqb_eq (b : UnitBase) (c : NamedUnit) :
  unit_eqb b c = true -> b = Named c.
Proof.
  destruct b as [n | s bs ps]; cbn [unit_eqb]; [| discriminate].
  intros H. apply NamedUnit_eqb_eq in H. congruence.
Qed.

(** What [fixhertz_item] returns: the pair as it was, or the opposite power
    of a named unit that is the reciprocal of the given one. *)
Lemma fixhertz_item_cases (rho : string -> R) (b b' : UnitBase) (p p' : R) :
  valuation rho ->
  fixhertz_item b p = OK (b', p') ->
  (b' = b /\ p' = p)
  \/ (p' = (- p)%R /\ (p < 0)%R
      /\ exists n n', b = Named n /\ b' = Named n'
                      /\ (named_value rho n * named_value rho n' = 1)%R).
Proof.
  intros Hrho. unfold fixhertz_item.
  destruct (Rleb 0 p) eqn:Hsign; cbn [orb].
  { intros [= <- <-]. auto. }
  assert (p < 0)%R as Hneg.
  { unfold Rleb in Hsign. destruct (Rle_dec 0 p); [discriminate | lra]. }
  destruct (negb (is_time_freq b)); [intros [= <- <-]; auto |].
  destruct (negb (isinstance_PrefixUnit b)) eqn:Hpre.
  { destruct (unit_eqb b second) eqn:Es.
    { apply unit_eqb_eq in Es. subst b. intros [= <- <-]. right.
      split; [reflexivity |]. split; [exact Hneg |].
      exists second, hertz. repeat split.
      apply (named_value_reciprocal rho second hertz 0 Hrho).
      left. split; reflexivity. }
    destruct (unit_eqb b hertz) eqn:Eh; [| intros [= <- <-]; auto].
    apply unit_eqb_eq in Eh. subst b. intros [= <- <-]. right.
    split; [reflexivity |]. split; [exact Hneg |].
    exists hertz, second. repeat split.
    apply (named_value_reciprocal rho hertz second 0 Hrho).
    right. split; reflexivity. }
  destruct (unit_eqb b attosecond) eqn:Ea.
  { apply unit_eqb_eq in Ea. subst b. intros [= <- <-]. right.
    split; [reflexivity |]. split; [exact Hneg |].
    exists attosecond, exahertz. repeat split.
    apply (named_value_reciprocal rho attosecond exahertz (-18) Hrho).
    left. split; reflexivity. }
  destruct b as [n | s bs ps]; [| discriminate Hpre].
  cbn [isinstance_PrefixUnit] in Hpre. apply negb_false_iff in Hpre.
  cbn [unit_name bind]. destruct n as [nm pf pt]. cbn [name] in *.
  cbn [is_PrefixUnit] in Hpre. subst pf.
  destruct nm as [| c rest]; [discriminate |].
  replace (str_getitem (String c rest) 0) with (OK (String c "")) by reflexivity.
  cbn [bind str_tail].
  destruct (flip_prefix (String c "")) as [q |] eqn:Hflip; [| discriminate].
  cbn [bind].
  destruct (flip_prefix_char c q Hflip) as (e & He & HHz & Hs).
  destruct (String.eqb_spec rest "s") as [-> | _].
  { destruct (Unit (q ++ "Hz")) as [u |] eqn:Hu; [| discriminate].
    cbn [bind]. intros [= <- <-]. right.
    split; [reflexivity |]. split; [exact Hneg |].
    exists (mkNamedUnit (String c "s") true pt), u. repeat split.
    apply (named_value_reciprocal rho _ u e Hrho). left. split.
    - apply represents_prefixed; auto.
    - apply HHz. reflexivity. }
  destruct (String.eqb_spec rest "Hz") as [-> | _];
    [| intros [= <- <-]; auto].
  destruct (Unit (q ++ "s")) as [u |] eqn:Hu; [| discriminate].
  cbn [bind]. intros [= <- <-]. right.
  split; [reflexivity |]. split; [exact Hneg |].
  exists (mkNamedUnit (String c "Hz") true pt), u. repeat split.
  apply (named_value_reciprocal rho _ u e Hrho). right. split.
  - apply represents_prefixed; auto.
  - apply Hs. reflexivity.
Qed.

Lemma fixhertz_item_denote (rho : string -> R) (b b' : UnitBase) (p p' : R) :
  valuation rho ->
  fixhertz_item b p = OK (b', p') ->
  Rpower (denote rho b') p' = Rpower (denote rho b) p
  /\ ((0 < denote rho b)%R -> (0 < denote rho b')%R)
  /\ (p' = p \/ p' = (- p)%R).
Proof.
  intros Hrho H.
  destruct (fixhertz_item_cases rho b b' p p' Hrho H)
    as [[-> ->] | (-> & _ & n & n' & -> & -> & Hrec)]; [auto |].
  cbn [denote]. split; [| split; [| auto]].
  - apply Rpower_reciprocal; try (apply named_value_pos; assumption).
    rewrite Rmult_comm. exact Hrec.
  - intros _. apply named_value_pos. assumption.
Qed.

Lemma denote_composite (rho : string -> R) s bs ps :
  denote rho (CompositeUnit s bs ps) = (s * denote_pairs rho bs ps)%R.
Proof.
  cbn [denote]. f_equal. revert ps.
  induction bs as [| b bs IH]; intros ps; [reflexivity |].
  destruct ps as [| p ps]; [reflexivity |].
  cbn [denote_pairs]. rewrite <- IH. reflexivity.
Qed.

Lemma map2_fixhertz_item_denote (rho : string -> R) :
  valuation rho ->
  forall bs ps fixes,
    map2_result fixhertz_item bs ps = OK fixes ->
    denote_pairs rho (map fst fixes) (map snd fixes) = denote_pairs rho bs ps.
Proof.
  intros Hrho. induction bs as [| b bs IH]; intros ps fixes.
  - cbn. intros [= <-]. reflexivity.
  - destruct ps as [| p ps]; [cbn; intros [= <-]; reflexivity |].
    cbn [map2_result].
    destruct (fixhertz_item b p) as [[b' p'] |] eqn:Hitem; [| discriminate].
    cbn [bind].
    destruct (map2_result fixhertz_item bs ps) as [rest |] eqn:Hrest;
      [| discriminate].
    cbn [bind]. intros [= <-]. cbn [map fst snd denote_pairs].
    rewrite (IH ps rest Hrest).
    destruct (fixhertz_item_denote rho b b' p p' Hrho Hitem) as (-> & _).
    reflexivity.
Qed.

Lemma denote_as_pairs (rho : string -> R) (u : UnitBase) :
  valuation rho ->
  denote rho u = (scale u * denote_pairs rho (bases u) (powers u))%R.
Proof.
  intros Hrho. destruct u as [n | s bs ps]; [| apply denote_composite].
  cbn [scale bases powers denote_pairs denote].
  rewrite Rpower_1 by (apply named_value_pos; assumption). ring.
Qed.

(** Under a valuation [fixhertz_comp] keeps what the unit denotes, as long
    as the unwrapping of a single pair is decided by a scale and a power
    that are 1 and not only close to 1. *)
Lemma fixhertz_comp_denote (rho : string -> R) (u u' : UnitBase) :
  valuation rho ->
  fixhertz_comp u = OK u' ->
  (List.length (bases u) = 1%nat \/ List.length (powers u) = 1%nat ->
   exactly_unity (scale u)
   /\ Forall (fun p => exactly_unity p /\ exactly_unity (- p)) (powers u)) ->
  Forall (fun b => (0 < denote rho b)%R) (bases u) ->
  denote rho u' = denote rho u.
Proof.
  intros Hrho. unfold fixhertz_comp.
  destruct (map2_result fixhertz_item (bases u) (powers u)) as [fixes |] eqn:Hmap;
    [| discriminate].
  cbn [bind]. destruct fixes as [| [b0 p0] rest]; [intros [= <-]; reflexivity |].
  pose proof (map2_fixhertz_item_denote rho Hrho _ _ _ Hmap) as Hpairs.
  rewrite (denote_as_pairs rho u Hrho), <- Hpairs.
  destruct (is_unity (scale u)
            && (Z.of_nat (List.length (map fst ((b0, p0) :: rest))) =? 1)
            && is_unity p0) eqn:Hcond;
    [| intros [= <-] _ _; apply denote_composite].
  apply andb_true_iff in Hcond. destruct Hcond as [Hcond Hp0].
  apply andb_true_iff in Hcond. destruct Hcond as [Hs Hlen].
  intros [= <-] Hexact Hposb.
  apply Z.eqb_eq in Hlen. rewrite length_map in Hlen. cbn [List.length] in Hlen.
  destruct rest as [| x rest]; [| cbn [List.length] in Hlen; lia].
  clear Hlen Hpairs.
  destruct (bases u) as [| b bs] eqn:Hb; [discriminate Hmap |].
  destruct (powers u) as [| p ps] eqn:Hp; [discriminate Hmap |].
  cbn [map2_result] in Hmap.
  destruct (fixhertz_item b p) as [[b1 p1] |] eqn:Hitem; [| discriminate].
  cbn [bind] in Hmap.
  destruct (map2_result fixhertz_item bs ps) as [tl' |] eqn:Htl;
    [| discriminate].
  cbn [bind] in Hmap. injection Hmap as -> -> ->.
  assert (bs = [] \/ ps = []) as Hone.
  { destruct bs as [| b2 bs]; [auto |]. destruct ps as [| p2 ps]; [auto |].
    cbn [map2_result] in Htl. destruct (fixhertz_item b2 p2); [| discriminate].
    cbn [bind] in Htl. destruct (map2_result _ bs ps); discriminate. }
  destruct Hexact as [Hscale Hpow].
  { destruct Hone as [-> | ->]; [left | right]; reflexivity. }
  inversion Hposb as [| ? ? Hbpos _]; subst.
  inversion Hpow as [| ? ? [Hp1 Hp2] _]; subst.
  destruct (fixhertz_item_denote rho b b0 p p0 Hrho Hitem)
    as (_ & Hpos0 & Hp0').
  assert (p0 = 1%R) as ->
    by (destruct Hp0' as [-> | ->]; [apply Hp1 | apply Hp2]; exact Hp0).
  rewrite (Hscale Hs). cbn [map fst snd denote_pairs].
  rewrite Rpower_1 by (apply Hpos0; exact Hbpos). ring.
Qed.

Lemma valuation_rho_one : valuation rho_one.
Proof. split; [intros r; unfold rho_one; lra | unfold rho_one; field]. Qed.

Lemma valuation_rho_two : valuation rho_two.
Proof.
  split.
  - intros r. unfold rho_two.
    destruct (r =? "s")%string; [lra |]. destruct (r =? "Hz")%string; lra.
  - reflexivity.
Qed.

Lemma fixhertz_item_positive_power (b : UnitBase) (p : R) :
  (0 <= p)%R -> fixhertz_item b p = OK (b, p).
Proof. intros H. unfold fixhertz_item. rewrite (Rleb_true 0 p H). reflexivity. Qed.

Lemma fixhertz_item_second (p : R) :
  (p < 0)%R -> fixhertz_item (Named second) p = OK (Named hertz, (- p)%R).
Proof. intros H. unfold fixhertz_item. rewrite (Rleb_false 0 p H). reflexivity. Qed.

Lemma fixhertz_item_gigahertz (p : R) :
  (p < 0)%R ->
  fixhertz_item (Named gigahertz) p = OK (Named nanosecond, (- p)%R).
Proof. intros H. unfold fixhertz_item. rewrite (Rleb_false 0 p H). reflexivity. Qed.

Lemma fixhertz_comp_gigahertz :
  fixhertz_comp (power_unit gigahertz (-1)) = OK (Named nanosecond).
Proof.
  unfold fixhertz_comp, power_unit. cbn [bases powers map2_result].
  rewrite fixhertz_item_gigahertz by lra.
  cbn [bind map fst snd List.length scale Z.of_nat Z.eqb Pos.of_succ_nat
       Pos.eqb andb].
  replace (- -1)%R with 1%R by lra. rewrite is_unity_1. reflexivity.
Qed.

Lemma is_unity_IZR (n : Z) : 0 < n -> is_unity (IZR n) = (n =? 1).
Proof.
  intros Hn. destruct (Z.eqb_spec n 1) as [-> | Hne]; [apply is_unity_1 |].
  apply is_unity_far. right. apply (IZR_le 2 n). lia.
Qed.

Lemma fixhertz_comp_second_power (n : Z) :
  0 < n -> fixhertz_comp (power_unit second (- IZR n)) = OK (hertz_power n).
Proof.
  intros Hn. assert (0 < IZR n)%R as Hpos by (apply (IZR_lt 0 n); exact Hn).
  unfold fixhertz_comp, power_unit. cbn [bases powers map2_result].
  rewrite fixhertz_item_second by lra.
  cbn [bind map fst snd List.length scale Z.of_nat Z.eqb Pos.of_succ_nat
       Pos.eqb andb].
  rewrite Ropp_involutive, is_unity_1, (is_unity_IZR n Hn).
  unfold hertz_power, power_unit. destruct (n =? 1); reflexivity.
Qed.

Lemma fixhertz_comp_hertz_power (n : Z) :
  0 < n -> fixhertz_comp (hertz_power n) = OK (hertz_power n).
Proof.
  intros Hn. assert (0 < IZR n)%R as Hpos by (apply (IZR_lt 0 n); exact Hn).
  unfold hertz_power. destruct (n =? 1) eqn:E.
  - unfold fixhertz_comp. cbn [bases powers map2_result].
    rewrite fixhertz_item_positive_power by lra.
    cbn [bind map fst snd List.length scale Z.of_nat Z.eqb Pos.of_succ_nat
         Pos.eqb andb].
    rewrite is_unity_1. reflexivity.
  - unfold fixhertz_comp, power_unit. cbn [bases powers map2_result].
    rewrite fixhertz_item_positive_power by lra.
    cbn [bind map fst snd List.length scale Z.of_nat Z.eqb Pos.of_succ_nat
         Pos.eqb andb].
    rewrite is_unity_1, (is_unity_IZR n Hn), E. reflexivity.
Qed.

Lemma hertz_power_magnitude (n : Z) :
  same_magnitude (hertz_power n) (power_unit hertz (IZR n)).
Proof.
  intros rho Hrho. unfold hertz_power.
  destruct (Z.eqb_spec n 1) as [-> | _]; [| reflexivity].
  unfold power_unit. cbn [denote].
  rewrite Rpower_1 by (apply named_value_pos; assumption). ring.
Qed.

(** On a composite unit [fixhertz] is [fixhertz_comp], which is how
    [optimize_unit] calls it. *)
Lemma fixhertz_composite (s : R) (bs : list UnitBase) (ps : list R) :
  fixhertz (AUnit (CompositeUnit s bs ps))
  = (u <- fixhertz_comp (CompositeUnit s bs ps) ;; OK (AUnit u)).
Proof. reflexivity. Qed.

(** The inverse of the exahertz is where the flip does not return: the
    symbol it builds is "as", which the library does not parse, and
    [fixhertz_item] has no case for it as [opt_single_base] has. *)
Lemma fixhertz_item_exahertz (p : R) :
  (p < 0)%R ->
  fixhertz_item (Named exahertz) p
  = Raise (ValueError "'{}' did not parse as unit").
Proof. intros H. unfold fixhertz_item. rewrite (Rleb_false 0 p H). reflexivity. Qed.

(** C3 (as the code has it): for a positive integer [n] and any payload
    [v], flipping [v * second ** -n] gives [v * hertz ** n] (the bare hertz
    when [n = 1]), with the payload untouched; flipping that again changes
    nothing, because the power is no longer negative. *)
Theorem hertz_flip_once (n : Z) (v : ndvalue) :
  0 < n ->
  fixhertz (AQuantity (mkQuantity v (power_unit second (- IZR n))))
  = OK (AQuantity (mkQuantity v (hertz_power n)))
  /\ same_quantity (AQuantity (mkQuantity v (hertz_power n)))
       (AQuantity (mkQuantity v (power_unit hertz (IZR n))))
  /\ fixhertz (AQuantity (mkQuantity v (hertz_power n)))
     = OK (AQuantity (mkQuantity v (hertz_power n))).
Proof.
  intros Hn. split; [| split].
  - unfold fixhertz. cbn [unit value].
    rewrite (fixhertz_comp_second_power n Hn). reflexivity.
  - split; [reflexivity | apply hertz_power_magnitude].
  - unfold fixhertz. cbn [unit value].
    rewrite (fixhertz_comp_hertz_power n Hn). reflexivity.
Qed.

Lemma hertz_flip_once_cubed :
  0 < 3
  /\ fixhertz (AQuantity (mkQuantity (Scalar 2) (power_unit second (- IZR 3))))
     = OK (AQuantity (mkQuantity (Scalar 2) (power_unit hertz (IZR 3)))).
Proof.
  assert (0 < 3) as H by lia. split; [exact H |].
  exact (proj1 (hertz_flip_once 3 (Scalar 2) H)).
Defined.

(** C3 (as the spec words it) fails at [n = 1], [v = 2]: the second flip
    returns [2 Hz], which is not [2 s]. *)
Lemma hertz_round_trip_fails :
  fixhertz (AQuantity (mkQuantity (Scalar 2) (power_unit second (- IZR 1))))
  = OK (AQuantity (mkQuantity (Scalar 2) (Named hertz)))
  /\ fixhertz (AQuantity (mkQuantity (Scalar 2) (Named hertz)))
     = OK (AQuantity (mkQuantity (Scalar 2) (Named hertz)))
  /\ ~ same_magnitude (Named hertz) (power_unit second (IZR 1))
  /\ ~ hertz_round_trip 1 (Scalar 2).
Proof.
  assert (fixhertz
            (AQuantity (mkQuantity (Scalar 2) (power_unit second (- IZR 1))))
          = OK (AQuantity (mkQuantity (Scalar 2) (Named hertz)))) as H1.
  { unfold fixhertz. cbn [unit value].
    rewrite (fixhertz_comp_second_power 1) by lia. reflexivity. }
  assert (fixhertz (AQuantity (mkQuantity (Scalar 2) (Named hertz)))
          = OK (AQuantity (mkQuantity (Scalar 2) (Named hertz)))) as H2.
  { pose proof (fixhertz_comp_hertz_power 1 eq_refl) as H.
    change (hertz_power 1) with (Named hertz) in H.
    unfold fixhertz. cbn [unit value]. rewrite H. reflexivity. }
  assert (~ same_magnitude (Named hertz) (power_unit second (IZR 1))) as H3.
  { intros Hsame. specialize (Hsame rho_two valuation_rho_two).
    unfold power_unit in Hsame. cbn [denote] in Hsame.
    unfold named_value in Hsame.
    change (fst (represents hertz)) with 0 in Hsame.
    change (snd (represents hertz)) with "Hz" in Hsame.
    change (fst (represents second)) with 0 in Hsame.
    change (snd (represents second)) with "s" in Hsame.
    change (rho_two "Hz") with (/ 2)%R in Hsame.
    change (rho_two "s") with 2%R in Hsame.
    rewrite Rpower_O in Hsame by lra.
    rewrite Rpower_1 in Hsame by lra. lra. }
  split; [exact H1 |]. split; [exact H2 |]. split; [exact H3 |].
  intros (q1 & q2 & Hq1 & _ & Hq2 & Hs).
  rewrite H1 in Hq1. injection Hq1 as <-.
  rewrite H2 in Hq2. injection Hq2 as <-.
  destruct Hs as [_ Hs]. exact (H3 Hs).
Qed.

(** C6 (as the code has it): when [fixhertz] returns on a quantity, the
    result is a quantity with the same payload and the flipped unit; under
    every valuation the flipped unit denotes what the unit did, as long as
    the unwrapping of a single pair is decided by a scale and a power that
    are exactly 1 ([is_unity] also accepts what is within 1e-10 + 1e-6 of
    1), every base having a positive size as the named units have. *)
Theorem fixhertz_keeps_magnitude (q : Quantity) (r : PyObj) :
  fixhertz (AQuantity q) = OK r ->
  exists u',
    fixhertz_comp (unit q) = OK u'
    /\ r = AQuantity (mkQuantity (value q) u')
    /\ forall rho,
         valuation rho ->
         (List.length (bases (unit q)) = 1%nat
          \/ List.length (powers (unit q)) = 1%nat ->
          exactly_unity (scale (unit q))
          /\ Forall (fun p => exactly_unity p /\ exactly_unity (- p))
               (powers (unit q))) ->
         Forall (fun b => (0 < denote rho b)%R) (bases (unit q)) ->
         denote rho u' = denote rho (unit q).
Proof.
  unfold fixhertz.
  destruct (fixhertz_comp (unit q)) as [u' |] eqn:Hcomp; [| discriminate].
  cbn [bind]. intros [= <-]. exists u'.
  split; [reflexivity |]. split; [reflexivity |].
  intros rho Hrho Hexact Hpos.
  exact (fixhertz_comp_denote rho (unit q) u' Hrho Hcomp Hexact Hpos).
Qed.

Lemma fixhertz_gigahertz :
  fixhertz (AQuantity (mkQuantity (Scalar 5) (power_unit gigahertz (-1))))
  = OK (AQuantity (mkQuantity (Scalar 5) (Named nanosecond))).
Proof.
  unfold fixhertz. cbn [unit value]. rewrite fixhertz_comp_gigahertz.
  reflexivity.
Qed.

Lemma fixhertz_keeps_magnitude_gigahertz :
  fixhertz (AQuantity (mkQuantity (Scalar 5) (power_unit gigahertz (-1))))
  = OK (AQuantity (mkQuantity (Scalar 5) (Named nanosecond)))
  /\ denote rho_one (Named nanosecond)
     = denote rho_one (power_unit gigahertz (-1)).
Proof.
  split; [exact fixhertz_gigahertz |].
  destruct (fixhertz_keeps_magnitude _ _ fixhertz_gigahertz)
    as (u' & Hcomp & Hr & Hden).
  injection Hr as <-.
  apply (Hden rho_one valuation_rho_one).
  - intros _. split.
    + intros _. reflexivity.
    + constructor; [| constructor]. split.
      * intros H. rewrite is_unity_far in H by lra. discriminate H.
      * intros _. lra.
  - constructor; [| constructor]. apply named_value_pos, valuation_rho_one.
Defined.

(** C6 (as the spec words it) fails on a scale within the tolerance of 1:
    [fixhertz] unwraps [1.0000005 m] to the bare meter. *)
Lemma fixhertz_drops_scale :
  fixhertz
    (AQuantity (mkQuantity (Scalar 1)
                  (CompositeUnit (1 + 5e-7) [Named meter] [1%R])))
  = OK (AQuantity (mkQuantity (Scalar 1) (Named meter)))
  /\ denote rho_one (Named meter) = 1%R
  /\ denote rho_one (CompositeUnit (1 + 5e-7) [Named meter] [1%R])
     = (1 + 5e-7)%R
  /\ ~ flip_preserves_magnitude
         (mkQuantity (Scalar 1)
            (CompositeUnit (1 + 5e-7) [Named meter] [1%R])).
Proof.
  assert (fixhertz
            (AQuantity (mkQuantity (Scalar 1)
                          (CompositeUnit (1 + 5e-7) [Named meter] [1%R])))
          = OK (AQuantity (mkQuantity (Scalar 1) (Named meter)))) as H1.
  { unfold fixhertz, fixhertz_comp. cbn [unit value bases powers map2_result].
    rewrite fixhertz_item_positive_power by lra.
    cbn [bind map fst snd List.length scale Z.of_nat Z.eqb Pos.of_succ_nat
         Pos.eqb andb].
    rewrite is_unity_1.
    replace (is_unity (1 + 5e-7)) with true; [reflexivity |].
    symmetry. apply is_unity_spec.
    replace (1 + 5e-7 - 1)%R with 5e-7%R by lra.
    rewrite Rabs_pos_eq; lra. }
  assert (denote rho_one (Named meter) = 1%R) as H2.
  { cbn [denote]. unfold named_value, rho_one.
    change (fst (represents meter)) with 0.
    rewrite Rpower_O by lra. ring. }
  assert (denote rho_one (CompositeUnit (1 + 5e-7) [Named meter] [1%R])
          = (1 + 5e-7)%R) as H3.
  { rewrite denote_composite. cbn [denote_pairs]. rewrite H2.
    rewrite Rpower_1 by lra. ring. }
  split; [exact H1 |]. split; [exact H2 |]. split; [exact H3 |].
  intros (u' & Hu & Hsame). cbn [value unit] in Hu, Hsame.
  rewrite H1 in Hu. injection Hu as <-.
  specialize (Hsame rho_one valuation_rho_one). rewrite H2, H3 in Hsame. lra.
Qed.

(** * Further properties of the module *)

(** ** The prefix table, both directions *)

Lemma pref_to_expon_not_in (p : string) :
  ~ In p (chars si_prefixes) ->
  pref_to_expon p = Raise (ValueError "'{}' is not a valid SI prefix").
Proof.
  intros H. unfold pref_to_expon. rewrite prefix_map_eq.
  unfold si_prefix_values. cbn [dict_get].
  repeat match goal with
  | |- context [String.eqb p ?k] =>
      destruct (String.eqb_spec p k) as [-> | _];
      [exfalso; apply H; simpl; tauto |]
  end.
  reflexivity.
Qed.

Lemma pref_to_expon_in (p : string) :
  In p (chars si_prefixes) ->
  exists e, pref_to_expon p = OK e /\ expon_to_pref e = OK p
            /\ In e si_exponents.
Proof.
  intros H. simpl in H.
  repeat (destruct H as [<- | H];
          [eexists; split; [vm_compute; reflexivity |];
           split; [vm_compute; reflexivity | vm_compute; tauto] |]).
  destruct H.
Qed.

(** X1: [pref_to_expon] returns an exponent exactly on the 16 one-character
    prefixes; on every other string, the empty one and longer ones
    included, it raises its [ValueError]. *)
Theorem pref_to_expon_domain (p : string) :
  ((exists e, pref_to_expon p = OK e) <-> In p (chars si_prefixes))
  /\ (~ In p (chars si_prefixes) ->
      pref_to_expon p = Raise (ValueError "'{}' is not a valid SI prefix")).
Proof.
  split; [split |].
  - intros [e He].
    destruct (in_dec string_dec p (chars si_prefixes)) as [Hin | Hout];
      [assumption |].
    rewrite (pref_to_expon_not_in p Hout) in He. discriminate.
  - intros Hin. destruct (pref_to_expon_in p Hin) as (e & He & _). eauto.
  - apply pref_to_expon_not_in.
Qed.

(** X2: the two lookups are inverse to each other: [pref_to_expon] sends a
    prefix to an exponent exactly when [expon_to_pref] sends that exponent
    back to that prefix. *)
Theorem prefix_exponent_round_trip (p : string) (e : Z) :
  pref_to_expon p = OK e <-> expon_to_pref e = OK p.
Proof.
  split; intros H.
  - destruct (in_dec string_dec p (chars si_prefixes)) as [Hin | Hout].
    + destruct (pref_to_expon_in p Hin) as (e' & He' & Hback & _).
      rewrite He' in H. injection H as <-. exact Hback.
    + rewrite (pref_to_expon_not_in p Hout) in H. discriminate.
  - destruct (in_dec Z.eq_dec e si_exponents) as [Hin | Hout].
    + destruct (expon_to_pref_in e Hin) as (p' & Hp' & Hback).
      rewrite Hp' in H. injection H as <-. exact Hback.
    + rewrite (expon_to_pref_not_in e Hout) in H. discriminate.
Qed.

(** ** Where [flip_prefix] raises *)

Lemma index_le_length (s1 s2 : string) :
  forall m n, String.index m s1 s2 = Some n -> (n <= String.length s2)%nat.
Proof.
  induction s2 as [| b s2 IH]; intros m n; cbn [String.index String.length].
  - destruct m; [| discriminate]. destruct s1; [| discriminate].
    intros [= <-]. lia.
  - destruct m as [| m].
    + destruct (String.prefix s1 (String b s2)); [intros [= <-]; lia |].
      destruct (String.index 0 s1 s2) as [k |] eqn:E; [| discriminate].
      intros [= <-]. apply IH in E. lia.
    + destruct (String.index m s1 s2) as [k |] eqn:E; [| discriminate].
      intros [= <-]. apply IH in E. lia.
Qed.

(** X3: [flip_prefix] raises [IndexError], and nothing else, exactly on the
    strings that do not occur in [si_prefixes]; on every string that does
    occur it returns one of the 16 prefixes. *)
Theorem flip_prefix_domain (pref : string) :
  (str_find si_prefixes pref = -1 -> flip_prefix pref = Raise IndexError)
  /\ (str_find si_prefixes pref <> -1 ->
      exists q, flip_prefix pref = OK q /\ In q (chars si_prefixes)).
Proof.
  unfold flip_prefix. split.
  - intros ->. reflexivity.
  - unfold str_find.
    destruct (String.index 0 pref si_prefixes) as [n |] eqn:E;
      [intros _ | intros H; contradiction H; reflexivity].
    apply index_le_length in E. change (String.length si_prefixes) with 16%nat in E.
    do 17 (destruct n as [| n];
           [eexists; split; [vm_compute; reflexivity | simpl; tauto] |]).
    exfalso. lia.
Qed.

Lemma flip_prefix_domain_deci :
  str_find si_prefixes "d" = -1 /\ flip_prefix "d" = Raise IndexError.
Proof.
  assert (str_find si_prefixes "d" = -1) as H by reflexivity.
  split; [exact H | exact (proj1 (flip_prefix_domain "d") H)].
Defined.

(** ** Flipping twice *)

Lemma fixhertz_item_fixed (b b' : UnitBase) (p p' : R) :
  fixhertz_item b p = OK (b', p') -> fixhertz_item b' p' = OK (b', p').
Proof.
  intros H.
  destruct (fixhertz_item_cases rho_one b b' p p' valuation_rho_one H)
    as [[-> ->] | (-> & Hneg & _)]; [exact H |].
  apply fixhertz_item_positive_power. lra.
Qed.

Lemma fixhertz_item_named_or_same (b b' : UnitBase) (p p' : R) :
  fixhertz_item b p = OK (b', p') ->
  isinstance_CompositeUnit b = false -> isinstance_CompositeUnit b' = false.
Proof.
  intros H Hb.
  destruct (fixhertz_item_cases rho_one b b' p p' valuation_rho_one H)
    as [[-> ->] | (_ & _ & n & n' & _ & -> & _)]; [exact Hb | reflexivity].
Qed.

Lemma map2_fixhertz_item_fixed (bs : list UnitBase) :
  forall ps fixes,
    map2_result fixhertz_item bs ps = OK fixes ->
    map2_result fixhertz_item (map fst fixes) (map snd fixes) = OK fixes.
Proof.
  induction bs as [| b bs IH]; intros ps fixes.
  - cbn. intros [= <-]. reflexivity.
  - destruct ps as [| p ps]; [cbn; intros [= <-]; reflexivity |].
    cbn [map2_result].
    destruct (fixhertz_item b p) as [[b' p'] |] eqn:Hitem; [| discriminate].
    cbn [bind].
    destruct (map2_result fixhertz_item bs ps) as [rest |] eqn:Hrest;
      [| discriminate].
    cbn [bind]. intros [= <-]. cbn [map fst snd map2_result].
    rewrite (fixhertz_item_fixed b b' p p' Hitem). cbn [bind].
    rewrite (IH ps rest Hrest). reflexivity.
Qed.

Lemma fixhertz_comp_named (n : NamedUnit) :
  fixhertz_comp (Named n) = OK (Named n).
Proof.
  unfold fixhertz_comp. cbn [bases powers map2_result].
  rewrite fixhertz_item_positive_power by lra.
  cbn [bind map fst snd List.length scale Z.of_nat Z.eqb Pos.of_succ_nat
       Pos.eqb andb].
  rewrite is_unity_1. reflexivity.
Qed.

(** X4: on a unit whose bases are named units the flip is idempotent:
    whatever [fixhertz_comp] returns, it returns again when applied to its
    own result. *)
Theorem fixhertz_comp_idempotent (u u' : UnitBase) :
  Forall (fun b => isinstance_CompositeUnit b = false) (bases u) ->
  fixhertz_comp u = OK u' ->
  fixhertz_comp u' = OK u'.
Proof.
  intros Hflat H. pose proof H as H0. unfold fixhertz_comp in H.
  destruct (map2_result fixhertz_item (bases u) (powers u)) as [fixes |] eqn:Hmap;
    [| discriminate].
  cbn [bind] in H. destruct fixes as [| [b0 p0] rest].
  { injection H as <-. exact H0. }
  destruct (is_unity (scale u)
            && (Z.of_nat (List.length (map fst ((b0, p0) :: rest))) =? 1)
            && is_unity p0) eqn:Hcond.
  - injection H as <-.
    destruct (bases u) as [| b bs]; [discriminate Hmap |].
    destruct (powers u) as [| p ps]; [discriminate Hmap |].
    cbn [map2_result] in Hmap.
    destruct (fixhertz_item b p) as [[b1 p1] |] eqn:Hitem; [| discriminate].
    cbn [bind] in Hmap.
    destruct (map2_result fixhertz_item bs ps); [| discriminate].
    cbn [bind] in Hmap. injection Hmap as -> -> _.
    inversion Hflat as [| ? ? Hb _]; subst.
    pose proof (fixhertz_item_named_or_same b b0 p p0 Hitem Hb) as Hb0.
    destruct b0 as [n0 | ? ? ?]; [apply fixhertz_comp_named | discriminate Hb0].
  - injection H as <-. unfold fixhertz_comp. cbn [bases powers scale].
    pose proof (map2_fixhertz_item_fixed _ _ _ Hmap) as Hfix.
    cbn [map fst snd] in Hfix. rewrite Hfix. cbn [bind].
    rewrite Hcond. reflexivity.
Qed.

Lemma fixhertz_comp_idempotent_gigahertz :
  Forall (fun b => isinstance_CompositeUnit b = false)
    (bases (power_unit gigahertz (-1)))
  /\ fixhertz_comp (power_unit gigahertz (-1)) = OK (Named nanosecond)
  /\ fixhertz_comp (Named nanosecond) = OK (Named nanosecond).
Proof.
  assert (Forall (fun b => isinstance_CompositeUnit b = false)
            (bases (power_unit gigahertz (-1)))) as H
    by (constructor; [reflexivity | constructor]).
  split; [exact H |]. split; [exact fixhertz_comp_gigahertz |].
  exact (fixhertz_comp_idempotent _ _ H fixhertz_comp_gigahertz).
Defined.

(** ** The flip on the units of the registry *)

Lemma Unit_name (s : string) (u : NamedUnit) : Unit s = OK u -> name u = s.
Proof.
  unfold Unit.
  destruct (String.eqb_spec s "as"); [discriminate |].
  destruct (String.eqb_spec s "attosecond"); [intros [= <-]; subst; reflexivity |].
  destruct (String.eqb_spec s "kg"); [intros [= <-]; subst; reflexivity |].
  destruct (String.eqb_spec s "cm"); [intros [= <-]; subst; reflexivity |].
  destruct (dict_get String.eqb roots s); [intros [= <-]; reflexivity |].
  destruct s as [| c rest]; [discriminate |].
  destruct (dict_get String.eqb si_prefix_values (String c ""));
    [| discriminate].
  destruct (dict_get String.eqb roots rest); [| discriminate].
  intros [= <-]. reflexivity.
Qed.

Lemma Unit_registered (s : string) (u : NamedUnit) :
  Unit s = OK u -> registered u.
Proof.
  intros H. unfold registered. rewrite (Unit_name s u H). exact H.
Qed.

Lemma flip_prefix_valid (c : ascii) (e0 : Z) :
  dict_get String.eqb si_prefix_values (String c "") = Some e0 ->
  exists q,
    flip_prefix (String c "") = OK q
    /\ (exists u, Unit (q ++ "Hz") = OK u)
    /\ ((String c "" = "E"
         /\ Unit (q ++ "s") = Raise (ValueError "'{}' did not parse as unit"))
        \/ (String c "" <> "E" /\ exists u, Unit (q ++ "s") = OK u)).
Proof.
  destruct c as [b0 b1 b2 b3 b4 b5 b6 b7].
  destruct b0, b1, b2, b3, b4, b5, b6, b7; intros H; vm_compute in H;
    try discriminate H; clear H;
    eexists; (split; [vm_compute; reflexivity |]);
    (split; [eexists; vm_compute; reflexivity |]);
    first [ left; split; [reflexivity | vm_compute; reflexivity]
          | right; split; [discriminate | eexists; vm_compute; reflexivity] ].
Qed.

(** X5: on a unit of the registry [fixhertz_item] returns a unit of the
    registry with the same or the opposite power, except on the exahertz
    with a negative power, where it raises the [ValueError] of the parser:
    the symbol it builds there is "as". *)
Theorem fixhertz_item_registered (n : NamedUnit) (p : R) :
  registered n ->
  (n = exahertz /\ (p < 0)%R ->
   fixhertz_item (Named n) p = Raise (ValueError "'{}' did not parse as unit"))
  /\ (~ (n = exahertz /\ (p < 0)%R) ->
      exists n' p',
        fixhertz_item (Named n) p = OK (Named n', p')
        /\ registered n' /\ (p' = p \/ p' = (- p)%R)).
Proof.
  intros Hreg. split.
  { intros [-> Hneg]. apply fixhertz_item_exahertz. exact Hneg. }
  intros Hnot. destruct (Rle_dec 0 p) as [Hpos | Hneg'].
  { exists n, p. rewrite fixhertz_item_positive_power by assumption. auto. }
  assert (p < 0)%R as Hneg by lra. clear Hneg'.
  assert (n <> exahertz) as Hne by (intros ->; apply Hnot; auto).
  unfold fixhertz_item. rewrite (Rleb_false 0 p Hneg). cbn [orb].
  destruct (negb (is_time_freq (Named n))); [exists n, p; auto |].
  destruct (registered_cases n Hreg)
    as [-> | [-> | [-> | [[Hpf _] | (Hpf & c & rest & e0 & Hnm & Hpe & _)]]]].
  - exists exahertz, (- p)%R. split; [reflexivity |]. split; [reflexivity | auto].
  - exists kilogram, p. split; [reflexivity |]. split; [reflexivity | auto].
  - exists centimeter, p. split; [reflexivity |]. split; [reflexivity | auto].
  - cbn [isinstance_PrefixUnit]. rewrite Hpf. cbn [negb].
    destruct (unit_eqb (Named n) second);
      [exists hertz, (- p)%R; split; [reflexivity |]; split;
       [reflexivity | auto] |].
    destruct (unit_eqb (Named n) hertz);
      [exists second, (- p)%R; split; [reflexivity |]; split;
       [reflexivity | auto] |].
    exists n, p. auto.
  - cbn [isinstance_PrefixUnit]. rewrite Hpf. cbn [negb].
    destruct (unit_eqb (Named n) attosecond);
      [exists exahertz, (- p)%R; split; [reflexivity |]; split;
       [reflexivity | auto] |].
    cbn [unit_name bind]. rewrite Hnm.
    replace (str_getitem (String c rest) 0) with (OK (String c "")) by reflexivity.
    cbn [bind str_tail].
    assert (dict_get String.eqb si_prefix_values (String c "") = Some e0) as Hlook.
    { unfold pref_to_expon in Hpe. rewrite prefix_map_eq in Hpe.
      destruct (dict_get String.eqb si_prefix_values (String c ""));
        [congruence | discriminate]. }
    destruct (flip_prefix_valid c e0 Hlook) as (q & -> & [uh Huh] & Hs).
    cbn [bind].
    destruct (String.eqb_spec rest "s") as [-> | _].
    { rewrite Huh. cbn [bind]. exists uh, (- p)%R.
      split; [reflexivity |]. split; [eapply Unit_registered; eassumption | auto]. }
    destruct (String.eqb_spec rest "Hz") as [-> | _]; [| exists n, p; auto].
    destruct Hs as [[HE _] | [_ [us Hus]]].
    + exfalso. apply Hne. injection HE as ->.
      unfold registered in Hreg. rewrite Hnm in Hreg.
      change (Unit "EHz") with (OK exahertz) in Hreg. congruence.
    + rewrite Hus. cbn [bind]. exists us, (- p)%R.
      split; [reflexivity |]. split; [eapply Unit_registered; eassumption | auto].
Qed.

Lemma fixhertz_item_registered_gigahertz :
  registered gigahertz
  /\ exists n' p',
       fixhertz_item (Named gigahertz) (-1) = OK (Named n', p')
       /\ registered n' /\ (p' = (-1)%R \/ p' = (- -1)%R).
Proof.
  assert (registered gigahertz) as H by reflexivity.
  split; [exact H |].
  apply (proj2 (fixhertz_item_registered gigahertz (-1) H)).
  intros [Habs _]. discriminate Habs.
Defined.

(** ** What [opt_single_base] keeps *)

Lemma opt_single_base_registered (n : NamedUnit) (s p : R) :
  registered n -> s <> 0%R -> p <> 0%R ->
  exists n',
    registered n'
    /\ snd (represents n') = snd (represents n)
    /\ opt_single_base exact_arith (CompositeUnit s [Named n] [p])
       = OK (CompositeUnit
               (s * Rpower 10
                      (p * (IZR (fst (represents n)) - IZR (fst (represents n')))))
               [Named n'] [p]).
Proof.
  intros Hreg Hs Hp.
  destruct (registered_represents n Hreg) as [Hne Hroot].
  set (e := fst (represents n)) in *. set (nm := snd (represents n)) in *.
  set (e' := clamped_exponent exact_arith e (Rabs s) p).
  destruct (clamped_exponent_range exact_arith e (Rabs s) p) as [Hm Hr].
  fold e' in Hm, Hr.
  destruct (reprefix_registered nm e' Hroot Hm Hr)
    as (pfx & n' & Hpfx & Hunit & Hreg' & Hrep').
  exists n'. split; [exact Hreg' |].
  split; [rewrite Hrep'; reflexivity |].
  assert (Rabs s <> 0%R) as Hv by (apply Rabs_no_R0; exact Hs).
  rewrite opt_single_base_one_pair, Hne. cbn [bind fst snd].
  rewrite (new_exponent_legal exact_arith e (Rabs s) p Hv Hp). cbn [bind].
  fold e'. rewrite Hpfx. cbn [bind]. rewrite Hunit. cbn [bind].
  rewrite Hrep', new_value_of_exact. cbn [fst]. do 2 f_equal.
  rewrite <- Rmult_assoc, Rabs_sign. f_equal. f_equal. ring.
Qed.

Lemma Rpower_scaled (a : Z) (r p : R) :
  (0 < r)%R ->
  Rpower (Rpower 10 (IZR a) * r) p
  = (Rpower 10 (IZR a * p) * Rpower r p)%R.
Proof.
  intros Hr. rewrite <- Rpower_mult_distr by (try apply Rpower_pos; assumption).
  rewrite Rpower_mult. reflexivity.
Qed.

(** Changing the prefix of a base and rescaling accordingly keeps what a
    one-pair unit denotes. *)
Lemma reprefix_denote (rho : string -> R) (n n' : NamedUnit) (s p : R) :
  valuation rho ->
  snd (represents n') = snd (represents n) ->
  denote rho
    (CompositeUnit
       (s * Rpower 10 (p * (IZR (fst (represents n)) - IZR (fst (represents n')))))
       [Named n'] [p])
  = denote rho (CompositeUnit s [Named n] [p]).
Proof.
  intros [Hpos _] Hnm. cbn [denote]. unfold named_value. rewrite Hnm.
  rewrite !Rpower_scaled by apply Hpos.
  transitivity
    (s * (Rpower 10 (p * (IZR (fst (represents n)) - IZR (fst (represents n')))
                     + IZR (fst (represents n')) * p)
          * Rpower (rho (snd (represents n))) p))%R.
  - rewrite Rpower_plus. ring.
  - replace (p * (IZR (fst (represents n)) - IZR (fst (represents n')))
             + IZR (fst (represents n')) * p)%R
      with (IZR (fst (represents n)) * p)%R by ring.
    ring.
Qed.

(** X6: on a one-pair unit over a base of the registry, with non-zero scale
    and power, [opt_single_base] returns, and the unit it returns denotes
    exactly what the argument denotes: the change of prefix is compensated
    by the change of scale. *)
Theorem opt_single_base_keeps_magnitude (n : NamedUnit) (s p : R) :
  registered n -> s <> 0%R -> p <> 0%R ->
  exists r,
    opt_single_base exact_arith (CompositeUnit s [Named n] [p]) = OK r
    /\ same_magnitude r (CompositeUnit s [Named n] [p]).
Proof.
  intros Hreg Hs Hp.
  destruct (opt_single_base_registered n s p Hreg Hs Hp)
    as (n' & _ & Hnm & Heq).
  eexists. split; [exact Heq |].
  intros rho Hrho. apply reprefix_denote; [exact Hrho | exact Hnm].
Qed.

Lemma opt_single_base_keeps_magnitude_meter :
  registered meter /\ 1000%R <> 0%R /\ 1%R <> 0%R
  /\ exists r,
       opt_single_base exact_arith (CompositeUnit 1000 [Named meter] [1%R])
       = OK r
       /\ same_magnitude r (CompositeUnit 1000 [Named meter] [1%R]).
Proof.
  assert (registered meter) as H1 by reflexivity.
  assert (1000%R <> 0%R) as H2 by lra.
  assert (1%R <> 0%R) as H3 by lra.
  split; [exact H1 |]. split; [exact H2 |]. split; [exact H3 |].
  exact (opt_single_base_keeps_magnitude meter 1000 1 H1 H2 H3).
Defined.

(** ** The choice of the exponent *)

Lemma log10_power_le (v1 v2 p : R) :
  (0 < p)%R -> (0 < v1)%R -> (v1 <= v2)%R ->
  (log10 (Rpower v1 (1 / p)) <= log10 (Rpower v2 (1 / p)))%R.
Proof.
  intros Hp Hv1 Hle. pose proof ln_10_pos as HT.
  unfold log10. rewrite !ln_Rpower.
  assert (ln v1 <= ln v2)%R as Hln.
  { destruct Hle as [Hlt | ->]; [left; apply ln_increasing; assumption | lra]. }
  apply Rmult_le_compat_r; [left; apply Rinv_0_lt_compat; exact HT |].
  apply Rmult_le_compat_l; [| exact Hln].
  unfold Rdiv. rewrite Rmult_1_l. left. apply Rinv_0_lt_compat. exact Hp.
Qed.

(** X9: with a positive power a larger value never gets a smaller
    exponent: the new exponent is monotone in the absolute scale. *)
Theorem new_exponent_monotone (e : Z) (v1 v2 p : R) :
  (0 < p)%R -> (0 < v1)%R -> (v1 <= v2)%R ->
  exists e1 e2,
    new_exponent exact_arith e v1 p = OK e1
    /\ new_exponent exact_arith e v2 p = OK e2
    /\ e1 <= e2.
Proof.
  intros Hp Hv1 Hle. do 2 eexists.
  split; [apply new_exponent_legal; lra |].
  split; [apply new_exponent_legal; lra |].
  rewrite !clamped_exponent_exact.
  assert (Zfloor ((IZR e + log10 (Rpower v1 (1 / p))) / 3)
          <= Zfloor ((IZR e + log10 (Rpower v2 (1 / p))) / 3)) as Hfloor.
  { apply Zfloor_le. pose proof (log10_power_le v1 v2 p Hp Hv1 Hle). lra. }
  lia.
Qed.

Lemma new_exponent_monotone_kilo :
  (0 < 1)%R /\ (0 < 1)%R /\ (1 <= 1000)%R
  /\ exists e1 e2,
       new_exponent exact_arith 0 1 1 = OK e1
       /\ new_exponent exact_arith 0 1000 1 = OK e2
       /\ e1 <= e2.
Proof.
  assert (0 < 1)%R as H1 by lra.
  assert (1 <= 1000)%R as H2 by lra.
  split; [exact H1 |]. split; [exact H1 |]. split; [exact H2 |].
  exact (new_exponent_monotone 0 1 1000 1 H1 H1 H2).
Defined.

(** ** The guards of [opt_single_base], completely *)

(** X10: [opt_single_base] raises a [TypeError] exactly when its argument
    is not a composite unit or has more than one base; with no base or
    with one base whatever else goes wrong is another exception. *)
Theorem opt_single_base_TypeError (tk : Toolkit) (u : UnitBase) :
  raises_TypeError (opt_single_base tk u) = true
  <-> (isinstance_CompositeUnit u = false
       \/ (1 < List.length (bases u))%nat).
Proof.
  destruct u as [n | s bs ps].
  { split; [intros _; left; reflexivity | intros _; reflexivity]. }
  destruct bs as [| b [| b2 bs]].
  - split; [discriminate |]. intros [H | H]; [discriminate H |].
    cbn [bases List.length] in H. lia.
  - split; [| intros [H | H]; [discriminate H |
                               cbn [bases List.length] in H; lia]].
    intros H. exfalso. revert H.
    assert (raises_TypeError (opt_single_base tk (CompositeUnit s [b] ps)) = false)
      as ->; [| discriminate].
    destruct ps as [| p ps'].
    + unfold opt_single_base.
      cbn [isinstance_CompositeUnit negb bases powers List.length Z.of_nat
           Z.ltb Z.compare Pos.of_succ_nat Pos.compare Pos.compare_cont
           list_getitem nth_error bind].
      apply bind_no_TypeError; [apply unit_name_expon_no_TypeError |].
      intros ne. reflexivity.
    + unfold opt_single_base.
      cbn [isinstance_CompositeUnit negb bases powers List.length Z.of_nat
           Z.ltb Z.compare Pos.of_succ_nat Pos.compare Pos.compare_cont
           list_getitem nth_error bind].
      apply bind_no_TypeError; [apply unit_name_expon_no_TypeError | intros ne].
      apply bind_no_TypeError; [apply new_exponent_no_TypeError | intros e'].
      apply bind_no_TypeError.
      * unfold new_prefix_of. destruct (negb _);
          [apply expon_to_pref_no_TypeError | reflexivity].
      * intros pfx. apply bind_no_TypeError; [| reflexivity].
        unfold new_unit_of. destruct (String.eqb _ _);
          [reflexivity | apply Unit_no_TypeError].
  - rewrite opt_single_base_many_bases. split; [| reflexivity].
    intros _. right. cbn [bases List.length]. lia.
Qed.

(** ** Composite units and quantities keep their values *)

Lemma opt_comp_units_named_first
  (tk : Toolkit) (decompose : UnitBase -> UnitBase)
  (s : R) (n : NamedUnit) (bs : list UnitBase) (p : R) (ps : list R) :
  opt_comp_units tk decompose (CompositeUnit s (Named n :: bs) (p :: ps))
  = (first <- opt_single_base tk (CompositeUnit s [Named n] [p]) ;;
     OK (CompositeUnit (scale first) (bases first ++ bs) (powers first ++ ps))).
Proof.
  unfold opt_comp_units. destruct recursion_limit_succ as [d ->]. reflexivity.
Qed.

Lemma opt_comp_units_registered
  (decompose : UnitBase -> UnitBase)
  (s : R) (n : NamedUnit) (bs : list UnitBase) (p : R) (ps : list R) :
  registered n -> s <> 0%R -> p <> 0%R ->
  exists s' n',
    opt_comp_units exact_arith decompose
      (CompositeUnit s (Named n :: bs) (p :: ps))
    = OK (CompositeUnit s' (Named n' :: bs) (p :: ps))
    /\ registered n'
    /\ forall rho,
         valuation rho ->
         (s' * denote_pairs rho (Named n' :: bs) (p :: ps)
          = s * denote_pairs rho (Named n :: bs) (p :: ps))%R.
Proof.
  intros Hreg Hs Hp.
  destruct (opt_single_base_registered n s p Hreg Hs Hp)
    as (n' & Hreg' & Hnm & Heq).
  exists (s * Rpower 10
                 (p * (IZR (fst (represents n)) - IZR (fst (represents n')))))%R,
         n'.
  split; [| split; [exact Hreg' |]].
  - rewrite opt_comp_units_named_first, Heq. reflexivity.
  - intros rho Hrho.
    pose proof (reprefix_denote rho n n' s p Hrho Hnm) as Hden.
    cbn [denote] in Hden. cbn [denote_pairs denote].
    rewrite !Rmult_1_r in Hden.
    rewrite <- !Rmult_assoc, Hden. reflexivity.
Qed.

(** X11: on a composite unit of non-zero scale whose first base is a unit
    of the registry with a non-zero power, [opt_comp_units] returns; the
    pairs after the first are the ones of the argument, and the unit
    returned denotes what the argument denotes. *)
Theorem opt_comp_units_keeps_magnitude
  (decompose : UnitBase -> UnitBase)
  (s : R) (n : NamedUnit) (bs : list UnitBase) (p : R) (ps : list R) :
  registered n -> s <> 0%R -> p <> 0%R ->
  exists r,
    opt_comp_units exact_arith decompose
      (CompositeUnit s (Named n :: bs) (p :: ps)) = OK r
    /\ tl (bases r) = bs /\ tl (powers r) = ps
    /\ same_magnitude r (CompositeUnit s (Named n :: bs) (p :: ps)).
Proof.
  intros Hreg Hs Hp.
  destruct (opt_comp_units_registered decompose s n bs p ps Hreg Hs Hp)
    as (s' & n' & Heq & _ & Hden).
  eexists. split; [exact Heq |]. split; [reflexivity |].
  split; [reflexivity |].
  intros rho Hrho. rewrite !denote_composite. apply Hden, Hrho.
Qed.

Lemma opt_comp_units_keeps_magnitude_meter :
  registered meter /\ 1000%R <> 0%R /\ 2%R <> 0%R
  /\ exists r,
       opt_comp_units exact_arith (fun u => u)
         (CompositeUnit 1000 [Named meter; Named second] [2%R; (-1)%R]) = OK r
       /\ tl (bases r) = [Named second] /\ tl (powers r) = [(-1)%R]
       /\ same_magnitude r
            (CompositeUnit 1000 [Named meter; Named second] [2%R; (-1)%R]).
Proof.
  assert (registered meter) as H1 by reflexivity.
  assert (1000%R <> 0%R) as H2 by lra.
  assert (2%R <> 0%R) as H3 by lra.
  split; [exact H1 |]. split; [exact H2 |]. split; [exact H3 |].
  exact (opt_comp_units_keeps_magnitude (fun u => u) 1000 meter
           [Named second] 2 [(-1)%R] H1 H2 H3).
Defined.

Lemma elements_nd_map (f : R -> R) (v : ndvalue) :
  elements (nd_map f v) = map f (elements v).
Proof. destruct v; reflexivity. Qed.

Lemma rescaled_values (rho : string -> R) (v : ndvalue)
  (m s' D : R) (bs' : list UnitBase) (ps' : list R) :
  m <> 0%R ->
  (s' * denote_pairs rho bs' ps' = m * D)%R ->
  map (fun x => (x * denote rho (CompositeUnit 1 bs' ps'))%R)
    (elements (nd_map (fun x => (x * s')%R) (nd_map (fun x => (x / m)%R) v)))
  = map (fun x => (x * D)%R) (elements v).
Proof.
  intros Hm Hden. rewrite !elements_nd_map, !map_map.
  apply map_ext. intros x. rewrite denote_composite.
  transitivity (x / m * (s' * denote_pairs rho bs' ps'))%R; [ring |].
  rewrite Hden. field. exact Hm.
Qed.

(** X12: without the flip, on a quantity of non-zero mean whose unit is
    optimizable, [optimize_unit] returns a quantity with the same physical
    values: each element times what its unit denotes is what it was. *)
Theorem optimize_unit_keeps_values
  (decompose : UnitBase -> UnitBase) (q : Quantity) :
  optimizable (unit q) -> mean_value_of (value q) <> 0%R ->
  exists q',
    optimize_unit exact_arith decompose (AQuantity q) false
    = OK (AQuantity q')
    /\ forall rho, valuation rho ->
                   quantity_values rho q' = quantity_values rho q.
Proof.
  intros Hopt Hm. destruct q as [v u]. cbn [unit value] in *.
  unfold optimize_unit. cbn [unit value]. rewrite (Reqb_false _ _ Hm).
  destruct u as [n | s [| [n | ? ? ?] bs] [| p ps]]; cbn [optimizable] in Hopt;
    try contradiction.
  - cbn [isinstance_CompositeUnit bind].
    assert (1%R <> 0%R) as H1 by lra.
    destruct (opt_comp_units_registered decompose (mean_value_of v) n [] 1 []
                Hopt Hm H1) as (s' & n' & -> & _ & Hden).
    cbn [bind scale bases powers]. eexists. split; [reflexivity |].
    intros rho Hrho. unfold quantity_values. cbn [unit value].
    apply rescaled_values; [exact Hm |].
    rewrite (Hden rho Hrho). cbn [denote_pairs denote].
    rewrite Rpower_1 by (apply named_value_pos; exact Hrho). ring.
  - destruct Hopt as (Hreg & Hs & Hp).
    cbn [isinstance_CompositeUnit bind scale bases powers].
    assert (mean_value_of v * s <> 0)%R as Hms
      by (apply Rmult_integral_contrapositive_currified; assumption).
    destruct (opt_comp_units_registered decompose (mean_value_of v * s) n bs p ps
                Hreg Hms Hp) as (s' & n' & -> & _ & Hden).
    cbn [bind scale bases powers]. eexists. split; [reflexivity |].
    intros rho Hrho. unfold quantity_values. cbn [unit value].
    apply rescaled_values; [exact Hm |].
    rewrite (Hden rho Hrho), denote_composite. ring.
Qed.

Lemma optimize_unit_keeps_values_meters :
  optimizable (Named meter)
  /\ mean_value_of (Array 1000 [2000%R; 3000%R]) <> 0%R
  /\ exists q',
       optimize_unit exact_arith (fun u => u)
         (AQuantity (mkQuantity (Array 1000 [2000%R; 3000%R]) (Named meter)))
         false = OK (AQuantity q')
       /\ forall rho, valuation rho ->
            quantity_values rho q'
            = quantity_values rho
                (mkQuantity (Array 1000 [2000%R; 3000%R]) (Named meter)).
Proof.
  assert (optimizable (Named meter)) as H1 by reflexivity.
  assert (mean_value_of (Array 1000 [2000%R; 3000%R]) <> 0%R) as H2.
  { cbn [mean_value_of map]. unfold np_mean.
    cbn [fold_right List.length INR].
    rewrite !Rabs_pos_eq by lra. lra. }
  split; [exact H1 |]. split; [exact H2 |].
  exact (optimize_unit_keeps_values (fun u => u)
           (mkQuantity (Array 1000 [2000%R; 3000%R]) (Named meter)) H1 H2).
Defined.

(** ** The flip and the tolerance of [is_unity] inside [optimize_unit] *)

(** X13: with the flip, a scalar quantity over a named unit whose value
    passes [is_unity] is optimised exactly as the value 1 is: the unit
    [value * unit] is unwrapped to the bare unit by [fixhertz_comp] and the
    value is lost. *)
Theorem optimize_unit_flip_forgets_near_unity
  (tk : Toolkit) (decompose : UnitBase -> UnitBase) (n : NamedUnit) (v : R) :
  is_unity v = true ->
  optimize_unit tk decompose (AQuantity (mkQuantity (Scalar v) (Named n))) true
  = optimize_unit tk decompose (AQuantity (mkQuantity (Scalar 1) (Named n))) true.
Proof.
  intros Hv.
  assert (v <> 0%R) as Hv0.
  { intros ->. rewrite is_unity_far in Hv by lra. discriminate Hv. }
  assert (forall x, is_unity x = true ->
            fixhertz_comp (CompositeUnit x [Named n] [1%R]) = OK (Named n))
    as Hunwrap.
  { intros x Hx. unfold fixhertz_comp. cbn [bases powers map2_result].
    rewrite fixhertz_item_positive_power by lra.
    cbn [bind map fst snd List.length scale Z.of_nat Z.eqb Pos.of_succ_nat
         Pos.eqb andb].
    rewrite Hx, is_unity_1. reflexivity. }
  unfold optimize_unit. cbn [unit value mean_value_of].
  rewrite (Reqb_false v 0 Hv0), (Reqb_false 1 0) by lra.
  cbn [isinstance_CompositeUnit].
  rewrite (Hunwrap v Hv), (Hunwrap 1%R is_unity_1). cbn [bind].
  destruct (opt_comp_units tk decompose (Named n)) as [opt |]; [| reflexivity].
  cbn [bind nd_map]. do 4 f_equal. field. exact Hv0.
Qed.

Lemma is_unity_near : is_unity (1 + 5e-7) = true.
Proof.
  apply is_unity_spec. replace (1 + 5e-7 - 1)%R with 5e-7%R by lra.
  rewrite Rabs_pos_eq; lra.
Qed.

Lemma optimize_unit_flip_forgets_near_unity_meter :
  is_unity (1 + 5e-7) = true
  /\ optimize_unit exact_arith (fun u => u)
       (AQuantity (mkQuantity (Scalar (1 + 5e-7)) (Named meter))) true
     = optimize_unit exact_arith (fun u => u)
         (AQuantity (mkQuantity (Scalar 1) (Named meter))) true.
Proof.
  split; [exact is_unity_near |].
  exact (optimize_unit_flip_forgets_near_unity exact_arith (fun u => u) meter
           (1 + 5e-7) is_unity_near).
Defined.

(** ** Units the flip has nothing to do on *)

Lemma map2_fixhertz_item_guarded (bs : list UnitBase) (ps : list R) :
  Forall2 guarded bs ps ->
  map2_result fixhertz_item bs ps = OK (combine bs ps)
  /\ map fst (combine bs ps) = bs /\ map snd (combine bs ps) = ps.
Proof.
  induction 1 as [| b p bs ps Hg _ (IH & IHb & IHp)]; [auto |].
  cbn [map2_result combine map fst snd].
  assert (fixhertz_item b p = OK (b, p)) as ->.
  { unfold fixhertz_item. destruct Hg as [Hp | Hb].
    - rewrite (Rleb_true 0 p Hp). reflexivity.
    - rewrite Hb. cbn [negb]. rewrite orb_true_r. reflexivity. }
  cbn [bind]. rewrite IH, IHb, IHp. auto.
Qed.

(** X14: a composite unit all of whose pairs have a non-negative power or
    a base that is neither a time nor a frequency comes back from
    [fixhertz_comp] as it is, unless it is a single pair whose scale and
    power both pass [is_unity], in which case the bare base comes back. *)
Theorem fixhertz_comp_guarded (s : R) (bs : list UnitBase) (ps : list R) :
  Forall2 guarded bs ps ->
  fixhertz_comp (CompositeUnit s bs ps)
  = OK (match bs, ps with
        | [b], [p] =>
            if is_unity s && is_unity p then b else CompositeUnit s bs ps
        | _, _ => CompositeUnit s bs ps
        end).
Proof.
  intros Hg.
  destruct (map2_fixhertz_item_guarded bs ps Hg) as (Hmap & Hb & Hp).
  unfold fixhertz_comp. cbn [bases powers scale]. rewrite Hmap. cbn [bind].
  destruct Hg as [| b p bs ps _ Hrest]; [reflexivity |].
  cbn [combine]. cbn [combine] in Hb, Hp. rewrite Hb, Hp.
  destruct Hrest as [| b2 p2 bs ps _ _].
  - cbn [List.length Z.of_nat Z.eqb Pos.of_succ_nat Pos.eqb].
    rewrite andb_true_r. destruct (is_unity s && is_unity p); reflexivity.
  - replace (Z.of_nat (List.length (b :: b2 :: bs)) =? 1) with false.
    + rewrite andb_false_r. reflexivity.
    + symmetry. apply Z.eqb_neq. cbn [List.length]. lia.
Qed.

Lemma fixhertz_comp_guarded_area_rate :
  Forall2 guarded [Named meter; Named second] [2%R; 3%R]
  /\ fixhertz_comp (CompositeUnit 1 [Named meter; Named second] [2%R; 3%R])
     = OK (CompositeUnit 1 [Named meter; Named second] [2%R; 3%R]).
Proof.
  assert (Forall2 guarded [Named meter; Named second] [2%R; 3%R]) as H.
  { constructor; [left; lra |]. constructor; [left; lra | constructor]. }
  split; [exact H |].
  exact (fixhertz_comp_guarded 1 _ _ H).
Defined.

(** ** Prefix units outside the table *)

Lemma not_prefix_char (c : ascii) :
  ~ In (String c "") (chars si_prefixes) ->
  flip_prefix (String c "") = Raise IndexError /\ Ascii.eqb c "a" = false.
Proof.
  destruct c as [b0 b1 b2 b3 b4 b5 b6 b7].
  destruct b0, b1, b2, b3, b4, b5, b6, b7; intros H;
    first [ split; reflexivity
          | exfalso; apply H; cbn;
            repeat (first [left; reflexivity | right]) ].
Qed.

Lemma prefix_unit_not_special (n : NamedUnit) (c : ascii) (rest : string) :
  is_PrefixUnit n = true -> name n = String c rest ->
  ~ In (String c "") (chars si_prefixes) ->
  unit_eqb (Named n) attosecond = false
  /\ unit_eqb (Named n) kilogram = false
  /\ unit_eqb (Named n) centimeter = false.
Proof.
  intros Hpf Hnm Hc. destruct (not_prefix_char c Hc) as [_ Ha].
  cbn [unit_eqb]. unfold NamedUnit_eqb. rewrite Hpf, Hnm.
  cbn [attosecond kilogram centimeter name is_PrefixUnit Bool.eqb].
  split; [| split; [apply andb_false_intro1, andb_false_r
                   | apply andb_false_intro1, andb_false_r]].
  cbn [String.eqb]. rewrite Ha. reflexivity.
Qed.

(** X15: [opt_single_base] on a prefix unit whose name does not start with
    one of the 16 prefixes of the table (the decimeter, say) raises the
    [ValueError] of [pref_to_expon], whatever the scale and the powers. *)
Theorem opt_single_base_unknown_prefix
  (tk : Toolkit) (n : NamedUnit) (c : ascii) (rest : string) (s : R) (ps : list R) :
  is_PrefixUnit n = true -> name n = String c rest ->
  ~ In (String c "") (chars si_prefixes) ->
  opt_single_base tk (CompositeUnit s [Named n] ps)
  = Raise (ValueError "'{}' is not a valid SI prefix").
Proof.
  intros Hpf Hnm Hc.
  destruct (prefix_unit_not_special n c rest Hpf Hnm Hc) as (Ha & Hk & Hcm).
  unfold opt_single_base.
  cbn [isinstance_CompositeUnit negb bases List.length Z.of_nat
       Z.ltb Z.compare Pos.of_succ_nat Pos.compare Pos.compare_cont
       list_getitem nth_error bind].
  unfold unit_name_expon. rewrite Ha, Hk, Hcm.
  cbn [isinstance_PrefixUnit unit_name bind]. rewrite Hpf, Hnm.
  replace (str_getitem (String c rest) 0) with (OK (String c "")) by reflexivity.
  cbn [bind]. rewrite (pref_to_expon_not_in _ Hc). reflexivity.
Qed.

Lemma opt_single_base_unknown_prefix_decimeter :
  is_PrefixUnit (mkNamedUnit "dm" true "length") = true
  /\ name (mkNamedUnit "dm" true "length") = "dm"
  /\ ~ In "d" (chars si_prefixes)
  /\ opt_single_base exact_arith
       (CompositeUnit 1 [Named (mkNamedUnit "dm" true "length")] [1%R])
     = Raise (ValueError "'{}' is not a valid SI prefix").
Proof.
  assert (~ In "d" (chars si_prefixes)) as H.
  { cbn. intros H. repeat (destruct H as [H | H]; [discriminate H |]).
    exact H. }
  split; [reflexivity |]. split; [reflexivity |]. split; [exact H |].
  exact (opt_single_base_unknown_prefix exact_arith
           (mkNamedUnit "dm" true "length")
           "d" "m" 1 [1%R] eq_refl eq_refl H).
Defined.

(** X16: [fixhertz_item] on a prefix unit of time or frequency whose name
    does not start with one of the 16 prefixes of the table (the
    decisecond, say), under a negative power, raises the [IndexError] of
    [flip_prefix]. *)
Theorem fixhertz_item_unknown_prefix
  (n : NamedUnit) (c : ascii) (rest : string) (p : R) :
  is_PrefixUnit n = true -> name n = String c rest ->
  ~ In (String c "") (chars si_prefixes) ->
  is_time_freq (Named n) = true -> (p < 0)%R ->
  fixhertz_item (Named n) p = Raise IndexError.
Proof.
  intros Hpf Hnm Hc Htf Hneg.
  destruct (prefix_unit_not_special n c rest Hpf Hnm Hc) as (Ha & _ & _).
  destruct (not_prefix_char c Hc) as [Hflip _].
  unfold fixhertz_item. rewrite (Rleb_false 0 p Hneg), Htf.
  cbn [orb negb isinstance_PrefixUnit]. rewrite Hpf. cbn [negb].
  rewrite Ha. cbn [unit_name bind]. rewrite Hnm.
  replace (str_getitem (String c rest) 0) with (OK (String c "")) by reflexivity.
  cbn [bind]. rewrite Hflip. reflexivity.
Qed.

Lemma fixhertz_item_unknown_prefix_decisecond :
  is_PrefixUnit (mkNamedUnit "ds" true "time") = true
  /\ name (mkNamedUnit "ds" true "time") = "ds"
  /\ ~ In "d" (chars si_prefixes)
  /\ is_time_freq (Named (mkNamedUnit "ds" true "time")) = true
  /\ (-1 < 0)%R
  /\ fixhertz_item (Named (mkNamedUnit "ds" true "time")) (-1)
     = Raise IndexError.
Proof.
  assert (~ In "d" (chars si_prefixes)) as H.
  { cbn. intros H. repeat (destruct H as [H | H]; [discriminate H |]).
    exact H. }
  assert (-1 < 0)%R as Hneg by lra.
  split; [reflexivity |]. split; [reflexivity |]. split; [exact H |].
  split; [reflexivity |]. split; [exact Hneg |].
  exact (fixhertz_item_unknown_prefix (mkNamedUnit "ds" true "time")
           "d" "s" (-1) eq_refl eq_refl H eq_refl Hneg).
Defined.
